(** * Pokemon collection service (src/index.js): embedding and properties

    The Express application of [src/index.js] is embedded as pure functions:
    - JavaScript values the handlers compute with: [Number] (an integer or
      [NaN]), strings as [string] (bytes; letter case is that of ASCII),
      JSON values for request bodies, documents and responses;
    - the built-ins the handlers call: [parseInt], [trim], [||], [RegExp];
    - the document store behind the Mongoose model [pokemon] as a list of
      documents in insertion order, with the five commands the handlers
      issue; every command is written to a journal and fails while the
      store is unreachable;
    - one definition per route handler, keeping the try/catch of the source,
      and the route table in registration order.

    Numbers are mathematical integers: the rounding of doubles above 2^53
    is outside the model. *)

From Stdlib Require Import ZArith String Ascii List Bool Lia.
From stdpp Require Import base option list gmap strings.

Local Open Scope Z_scope.
Local Open Scope string_scope.

(* ===================================================================== *)
(** ** JavaScript values *)
(* ===================================================================== *)

Module JS.

(** A JavaScript number as the handlers meet it: what [parseInt] returns. *)
Inductive Number : Type :=
| NaN
| Int (z : Z).

(** JSON values: request bodies, stored documents, response bodies. *)
#[warnings="-register-all"]
Inductive JSON : Type :=
| JNull
| JBool (b : bool)
| JNumber (z : Z)
| JString (s : string)
| JArray (items : list JSON)
| JObject (members : list (string * JSON)).

(** [o.k] on a JSON value: [None] is [undefined]. *)
Definition member (k : string) (v : JSON) : option JSON :=
  match v with
  | JObject ms => snd <$> List.find (fun kv => String.eqb (fst kv) k) ms
  | _ => None
  end.

(** A dotted path such as [name.english], one segment per list element. *)
Fixpoint get (path : list string) (v : JSON) : option JSON :=
  match path with
  | [] => Some v
  | k :: rest => match member k v with
                 | Some v' => get rest v'
                 | None => None
                 end
  end.

(** [JSON.stringify] writes [NaN] as [null]. *)
Definition number_to_json (n : Number) : JSON :=
  match n with
  | NaN => JNull
  | Int z => JNumber z
  end.

(** *** Characters *)

Definition code (c : ascii) : N := N_of_ascii c.

(** WhiteSpace and LineTerminator code points below 128: TAB, LF, VT, FF,
    CR and SPACE. *)
Definition isWhiteSpace (c : ascii) : bool :=
  ((9 <=? code c) && (code c <=? 13))%N || (code c =? 32)%N.

Definition isDigit (c : ascii) : bool :=
  ((48 <=? code c) && (code c <=? 57))%N.

Definition digitValue (c : ascii) : Z := Z.of_N (code c) - 48.

Definition isLineTerminator (c : ascii) : bool :=
  (code c =? 10)%N || (code c =? 13)%N.

(** Canonicalize of a case-insensitive RegExp: the upper-case form. *)
Definition canonicalize (c : ascii) : ascii :=
  if ((97 <=? code c) && (code c <=? 122))%N
  then ascii_of_N (code c - 32)
  else c.

Definition same_letter (a b : ascii) : bool :=
  Ascii.eqb (canonicalize a) (canonicalize b).

Fixpoint dropWhile {A} (p : A -> bool) (l : list A) : list A :=
  match l with
  | [] => []
  | x :: l' => if p x then dropWhile p l' else l
  end.

Fixpoint takeWhile {A} (p : A -> bool) (l : list A) : list A :=
  match l with
  | [] => []
  | x :: l' => if p x then x :: takeWhile p l' else []
  end.

(** *** parseInt(string, 10) *)

(** The mathematical value of a run of decimal digits. *)
Definition decimal (ds : list ascii) : Z :=
  fold_left (fun acc d => 10 * acc + digitValue d) ds 0.

(** [parseInt(input, 10)]: leading white space is skipped, one sign is
    read, then the longest run of digits; no digit gives [NaN]. *)
Definition parseInt (input : string) : Number :=
  let str := dropWhile isWhiteSpace (list_ascii_of_string input) in
  let '(sign, str) :=
    match str with
    | "-"%char :: rest => (-1, rest)
    | "+"%char :: rest => (1, rest)
    | _ => (1, str)
    end in
  match takeWhile isDigit str with
  | [] => NaN
  | ds => Int (sign * decimal ds)
  end.

(** [n || d] for a number [n]: [NaN] and zero are falsy. *)
Definition or_default (n : Number) (d : Z) : Z :=
  match n with
  | NaN => d
  | Int 0 => d
  | Int z => z
  end.

(** [String.prototype.trim]. *)
Definition trim (s : string) : string :=
  string_of_list_ascii
    (rev (dropWhile isWhiteSpace
            (rev (dropWhile isWhiteSpace (list_ascii_of_string s))))).

(** A string is falsy exactly when it is empty. *)
Definition is_empty (s : string) : bool :=
  match s with
  | EmptyString => true
  | _ => false
  end.

End JS.
Export JS.

(* ===================================================================== *)
(** ** new RegExp(q, "i") *)
(* ===================================================================== *)

(** The pattern language is embedded for the fragment made of pattern
    characters, [.], [^], [$], escaped syntax characters, groups,
    alternation and the quantifiers [*], [+], [?] (greedy or lazy).
    Patterns that use anything else (classes, braces, other escapes,
    look-around, named groups) are handed to the engine the platform
    provides, see [RegExpEngine]. *)

Module Pattern.

Inductive regex : Type :=
| Empty
| Char (c : ascii)
| AnyChar
| Bol
| Eol
| Seq (r1 r2 : regex)
| Alt (r1 r2 : regex)
| Star (r : regex)
| Plus (r : regex)
| Opt (r : regex).

(** SyntaxCharacter of the ECMAScript pattern grammar. *)
Definition isSyntaxCharacter (c : ascii) : bool :=
  existsb (Ascii.eqb c)
    (list_ascii_of_string "^$\.*+?()[]{}|").

(** What the last term of the alternative being read allows next. *)
Inductive last_term : Type :=
| NoAtom        (* nothing to repeat: start, after an assertion *)
| Atom          (* an atom: a quantifier may follow *)
| Greedy        (* a quantified atom: only the lazy mark may follow *)
| Lazy.         (* a lazily quantified atom *)

(** A disjunction being read: the alternatives already closed by [|]
    (latest first) and the terms of the current one (latest first). *)
Record frame : Type := Frame {
  closed : list regex;
  terms : list regex;
  last : last_term
}.

Definition empty_frame : frame := Frame [] [] NoAtom.

Definition alternative (ts : list regex) : regex :=
  fold_left (fun acc t => Seq t acc) ts Empty.

Definition disjunction (f : frame) : regex :=
  fold_left (fun acc a => Alt a acc) (closed f) (alternative (terms f)).

Definition push_atom (r : regex) (f : frame) : frame :=
  Frame (closed f) (r :: terms f) Atom.

Definition push_assertion (r : regex) (f : frame) : frame :=
  Frame (closed f) (r :: terms f) NoAtom.

Definition bar (f : frame) : frame :=
  Frame (alternative (terms f) :: closed f) [] NoAtom.

Inductive parsed : Type :=
| Parsed (r : regex)
| SyntaxError (msg : string)
| Beyond.

(** A quantifier applied to the last term. *)
Definition quantify (q : regex -> regex) (f : frame) : option frame :=
  match last f, terms f with
  | Atom, t :: ts => Some (Frame (closed f) (q t :: ts) Greedy)
  | _, _ => None
  end.

(** [?] is a quantifier after an atom and the lazy mark after a
    quantifier. *)
Definition question (f : frame) : option frame :=
  match last f, terms f with
  | Atom, t :: ts => Some (Frame (closed f) (Opt t :: ts) Greedy)
  | Greedy, _ => Some (Frame (closed f) (terms f) Lazy)
  | _, _ => None
  end.

(** One pass over the pattern with the stack of the enclosing groups. *)
Fixpoint parse (s : list ascii) (cur : frame) (outer : list frame) : parsed :=
  match s with
  | [] =>
      match outer with
      | [] => Parsed (disjunction cur)
      | _ :: _ => SyntaxError "Unterminated group"
      end
  | "("%char :: "?"%char :: ":"%char :: rest => parse rest empty_frame (cur :: outer)
  | "("%char :: "?"%char :: _ => Beyond
  | "("%char :: rest => parse rest empty_frame (cur :: outer)
  | ")"%char :: rest =>
      match outer with
      | [] => SyntaxError "Unmatched ')'"
      | up :: outer' => parse rest (push_atom (disjunction cur) up) outer'
      end
  | "|"%char :: rest => parse rest (bar cur) outer
  | "*"%char :: rest =>
      match quantify Star cur with
      | Some cur' => parse rest cur' outer
      | None => SyntaxError "Nothing to repeat"
      end
  | "+"%char :: rest =>
      match quantify Plus cur with
      | Some cur' => parse rest cur' outer
      | None => SyntaxError "Nothing to repeat"
      end
  | "?"%char :: rest =>
      match question cur with
      | Some cur' => parse rest cur' outer
      | None => SyntaxError "Nothing to repeat"
      end
  | "."%char :: rest => parse rest (push_atom AnyChar cur) outer
  | "^"%char :: rest => parse rest (push_assertion Bol cur) outer
  | "$"%char :: rest => parse rest (push_assertion Eol cur) outer
  | "\"%char :: c :: rest =>
      if isSyntaxCharacter c
      then parse rest (push_atom (Char c) cur) outer
      else Beyond
  | "\"%char :: [] => SyntaxError "\ at end of pattern"
  | c :: rest =>
      if isSyntaxCharacter c
      then Beyond
      else parse rest (push_atom (Char c) cur) outer
  end.

Definition parse_pattern (p : string) : parsed :=
  parse (list_ascii_of_string p) empty_frame [].

(** *** Matching

    [ends r s i] lists the positions where a match of [r] that starts at
    position [i] of [s] can end. Letters compare by [canonicalize]. *)

Section Matching.
Variable s : list ascii.

(** The iterations of a starred term: each one must consume input. *)
Fixpoint iterate (step : nat -> list nat) (fuel : nat) (i : nat) : list nat :=
  i :: match fuel with
       | O => []
       | S fuel' =>
           flat_map (iterate step fuel')
             (List.filter (fun j => Nat.ltb i j) (step i))
       end.

Fixpoint ends (r : regex) (i : nat) : list nat :=
  match r with
  | Empty => [i]
  | Char c =>
      match s !! i with
      | Some x => if same_letter x c then [S i] else []
      | None => []
      end
  | AnyChar =>
      match s !! i with
      | Some x => if isLineTerminator x then [] else [S i]
      | None => []
      end
  | Bol => if Nat.eqb i 0 then [i] else []
  | Eol => if Nat.eqb i (List.length s) then [i] else []
  | Seq r1 r2 => flat_map (ends r2) (ends r1 i)
  | Alt r1 r2 => (ends r1 i ++ ends r2 i)%list
  | Star r1 => iterate (ends r1) (List.length s) i
  | Plus r1 => flat_map (iterate (ends r1) (List.length s)) (ends r1 i)
  | Opt r1 => i :: ends r1 i
  end.

Definition matches_at (r : regex) (i : nat) : bool :=
  match ends r i with
  | [] => false
  | _ :: _ => true
  end.

(** [RegExp.prototype.test] without the sticky flag: a match may start
    anywhere. *)
Definition search (r : regex) : bool :=
  existsb (matches_at r) (seq 0 (S (List.length s))).
End Matching.

End Pattern.

(** The engine on the patterns outside the embedded fragment: [None] when
    the constructor throws a SyntaxError, otherwise the predicate
    [RegExp.prototype.test] of the compiled pattern. *)
Class RegExpEngine : Type := {
  beyond : string -> option (string -> bool)
}.

(** A RegExp object: its source and what [test] answers. *)
Record RegExp : Type := MkRegExp {
  source : string;
  test : string -> bool
}.

(** [new RegExp(pattern, "i")]: the object, or the message of the
    SyntaxError it throws. *)
Definition RegExp_new `{RegExpEngine} (pattern : string) : string + RegExp :=
  match Pattern.parse_pattern pattern with
  | Pattern.Parsed r =>
      inr (MkRegExp pattern
             (fun subject => Pattern.search (list_ascii_of_string subject) r))
  | Pattern.SyntaxError msg =>
      inl ("Invalid regular expression: /" ++ pattern ++ "/: " ++ msg)
  | Pattern.Beyond =>
      match beyond pattern with
      | Some t => inr (MkRegExp pattern t)
      | None => inl ("Invalid regular expression: /" ++ pattern ++ "/")
      end
  end.

(* ===================================================================== *)
(** ** The store behind the model [pokemon] *)
(* ===================================================================== *)

(** The schema of [src/schema/pokemon.js] is not among the sources: what
    it makes of a candidate document and of an update is a parameter.
    - [cast_document body]: the message of the validation failure, or the
      document as it is stored (defaults applied);
    - [cast_update body]: the message of the cast failure, or the change
      the update makes to a stored document;
    - [update_validators body]: the message of the validator that rejects
      the update, if one does; they run under [runValidators]. *)
Class Schema : Type := {
  cast_document : JSON -> string + JSON;
  cast_update : JSON -> string + (JSON -> JSON);
  update_validators : JSON -> option string
}.

Module Store.

Inductive Condition : Type :=
| Equals (n : Number)          (* { path: n } *)
| Matches (re : RegExp).       (* { path: re } *)

#[warnings="-register-all"]
Inductive Filter : Type :=
| Everything                                      (* {} *)
| Where (path : list string) (c : Condition)      (* { path: c } *)
| AnyOf (alternatives : list Filter).             (* { $or: [...] } *)

(** Modelled from the spec: the declaration of [id] in
    [src/schema/pokemon.js] is missing; the spec takes the value that
    [parseInt] gives for a non-numeric text as one that matches no record.
    A number matches the stored number equal to it, a RegExp matches the
    stored string it tests true on. *)
Definition holds (c : Condition) (v : option JSON) : bool :=
  match c, v with
  | Equals (Int n), Some (JNumber z) => Z.eqb z n
  | Matches re, Some (JString s) => test re s
  | _, _ => false
  end.

Fixpoint selects (f : Filter) (doc : JSON) : bool :=
  match f with
  | Everything => true
  | Where path c => holds c (get path doc)
  | AnyOf fs => existsb (fun f' => selects f' doc) fs
  end.

(** The options of [findOneAndUpdate]; a field left out of the options
    object has its default, [false]. *)
Record UpdateOptions : Type := {
  new : bool;
  runValidators : bool;
  upsert : bool
}.

(** A [find] query under construction: [.skip(n)] and [.limit(n)] set
    their option, awaiting the query runs it. *)
Record Query : Type := {
  filter : Filter;
  skipped : option Z;
  limited : option Z
}.

(** The calls made on the model, in order. *)
Inductive Command : Type :=
| Find (q : Query)
| FindOne (f : Filter)
| Create (body : JSON)
| FindOneAndUpdate (f : Filter) (update : JSON) (o : UpdateOptions)
| FindOneAndDelete (f : Filter).

(** A thrown value; the handlers read its [message] only. *)
Record Error : Type := MkError { message : string }.

Inductive Outcome (A : Type) : Type :=
| Returned (a : A)
| Thrown (e : Error).
Arguments Returned {A} a.
Arguments Thrown {A} e.

(** The collection in insertion order, whether the store can be reached
    ([outage] holds the message of the failure when it cannot), and the
    calls made so far. *)
Record World : Type := MkWorld {
  collection : list JSON;
  outage : option string;
  journal : list Command
}.

(** An awaited computation: it may throw, and it acts on the store. *)
Definition Async (A : Type) : Type := World -> Outcome A * World.

#[export] Instance async_ret : MRet Async :=
  fun A a w => (Returned a, w).

#[export] Instance async_bind : MBind Async :=
  fun A B k m w =>
    match m w with
    | (Returned a, w') => k a w'
    | (Thrown e, w') => (Thrown e, w')
    end.

Definition throw {A} (e : Error) : Async A :=
  fun w => (Thrown e, w).

(** [try { body } catch (error) { handler }]. *)
Definition try_catch {A} (body : Async A) (handler : Error -> Async A) : Async A :=
  fun w =>
    match body w with
    | (Returned a, w') => (Returned a, w')
    | (Thrown e, w') => handler e w'
    end.

(** A call on the model: it is journalled; when the client side rejects
    it ([inl]) nothing is sent; otherwise the operation runs on the
    collection, unless the store cannot be reached. *)
Definition call {A} (c : Command)
    (op : string + (list JSON -> Outcome A * list JSON)) : Async A :=
  fun w =>
    let log := (journal w ++ [c])%list in
    match op with
    | inl msg => (Thrown (MkError msg), MkWorld (collection w) (outage w) log)
    | inr run =>
        match outage w with
        | Some msg => (Thrown (MkError msg), MkWorld (collection w) (outage w) log)
        | None =>
            let '(o, docs) := run (collection w) in
            (o, MkWorld docs None log)
        end
    end.

(** *** find, skip, limit *)

Definition find (f : Filter) : Query := Build_Query f None None.
Definition skip (n : Z) (q : Query) : Query := Build_Query (filter q) (Some n) (limited q).
Definition limit (n : Z) (q : Query) : Query := Build_Query (filter q) (skipped q) (Some n).

(** The documents a query returns: those the filter selects, in the
    order of the collection, after the skip and within the limit. A limit
    of zero is no limit. *)
Definition window (q : Query) (docs : list JSON) : list JSON :=
  let hits := List.filter (selects (filter q)) docs in
  let rest := match skipped q with
              | Some n => drop (Z.to_nat n) hits
              | None => hits
              end in
  match limited q with
  | Some 0 | None => rest
  | Some n => take (Z.abs_nat n) rest
  end.

(** Awaiting a query; the server refuses a negative skip. *)
Definition exec (q : Query) : Async (list JSON) :=
  call (Find q)
    (inr (fun docs =>
       match skipped q with
       | Some n =>
           if (n <? 0)%Z
           then (Thrown (MkError "BSON field 'skip' value must be >= 0"), docs)
           else (Returned (window q docs), docs)
       | None => (Returned (window q docs), docs)
       end)).

(** *** findOne *)

Definition findOne (f : Filter) : Async (option JSON) :=
  call (FindOne f)
    (inr (fun docs => (Returned (List.find (selects f) docs), docs))).

(** *** create *)

Definition create `{Schema} (body : JSON) : Async JSON :=
  call (Create body)
    match cast_document body with
    | inl msg => inl msg
    | inr doc => inr (fun docs => (Returned doc, (docs ++ [doc])%list))
    end.

(** *** findOneAndUpdate *)

(** The first document the predicate selects is replaced by its image. *)
Fixpoint update_first (p : JSON -> bool) (f : JSON -> JSON) (docs : list JSON)
  : option (JSON * JSON) * list JSON :=
  match docs with
  | [] => (None, [])
  | d :: rest =>
      if p d then (Some (d, f d), f d :: rest)
      else let '(r, rest') := update_first p f rest in (r, d :: rest')
  end.

(** The equality conditions of a filter, as the document an upsert
    starts from. *)
Definition seed (f : Filter) : JSON :=
  match f with
  | Where [k] (Equals n) => JObject [(k, number_to_json n)]
  | _ => JObject []
  end.

(** The update is cast, and validated under [runValidators], before
    anything is sent. With no match, a document is inserted only under
    [upsert]. The answer is the document after the update under [new],
    before it otherwise. *)
Definition findOneAndUpdate `{Schema} (f : Filter) (update : JSON)
    (o : UpdateOptions) : Async (option JSON) :=
  call (FindOneAndUpdate f update o)
    match cast_update update with
    | inl msg => inl msg
    | inr change =>
        match (if runValidators o then update_validators update else None) with
        | Some msg => inl msg
        | None =>
            inr (fun docs =>
              match update_first (selects f) change docs with
              | (Some (before, after), docs') =>
                  (Returned (Some (if new o then after else before)), docs')
              | (None, _) =>
                  if upsert o
                  then let doc := change (seed f) in
                       (Returned (if new o then Some doc else None), (docs ++ [doc])%list)
                  else (Returned None, docs)
              end)
        end
    end.

(** *** findOneAndDelete *)

Fixpoint delete_first (p : JSON -> bool) (docs : list JSON)
  : option JSON * list JSON :=
  match docs with
  | [] => (None, [])
  | d :: rest =>
      if p d then (Some d, rest)
      else let '(r, rest') := delete_first p rest in (r, d :: rest')
  end.

Definition findOneAndDelete (f : Filter) : Async (option JSON) :=
  call (FindOneAndDelete f)
    (inr (fun docs =>
       let '(r, docs') := delete_first (selects f) docs in (Returned r, docs'))).

End Store.
Export Store.

(* ===================================================================== *)
(** ** Requests, responses and the route handlers of src/index.js *)
(* ===================================================================== *)

(** A value of [req.query]: a string, or what a repeated or bracketed
    parameter gives. *)
Inductive QueryValue : Type :=
| QString (s : string)
| QArray (items : list string)
| QObject.

Inductive Method : Type := GET | POST | PUT | DELETE.

Record Request : Type := {
  method : Method;
  path : list string;                 (* the segments between the slashes *)
  query : gmap string QueryValue;
  params : gmap string string;        (* filled in by the router *)
  body : JSON
}.

(** [res.status(s).json(v)]; [res.json(v)] leaves the status at 200. *)
Record Response : Type := {
  status : Z;
  json : JSON
}.

Definition res_json (v : JSON) : Response := {| status := 200; json := v |}.
Definition res_status_json (s : Z) (v : JSON) : Response := {| status := s; json := v |}.

(** The object [{ error: msg }]. *)
Definition error_body (msg : string) : JSON := JObject [("error", JString msg)].

(** ToString of a query value, as [parseInt] applies it to its argument. *)
Definition ToString (v : option QueryValue) : string :=
  match v with
  | None => "undefined"
  | Some (QString s) => s
  | Some (QArray items) => String.concat "," items
  | Some QObject => "[object Object]"
  end.

(** [v || ""]: absent and the empty string are falsy. *)
Definition or_empty (v : option QueryValue) : QueryValue :=
  match v with
  | None | Some (QString EmptyString) => QString ""
  | Some v' => v'
  end.

(** [v.trim()]: only strings have the method. *)
Definition call_trim (v : QueryValue) : Async string :=
  match v with
  | QString s => mret (trim s)
  | _ => throw (MkError "(intermediate value).trim is not a function")
  end.

(** [new RegExp(q, "i")] inside a handler. *)
Definition new_RegExp `{RegExpEngine} (q : string) : Async RegExp :=
  match RegExp_new q with
  | inr re => mret re
  | inl msg => throw (MkError msg)
  end.

Definition id_param (req : Request) : string :=
  default "undefined" (params req !! "id").

Section Handlers.
Context `{Schema} `{RegExpEngine}.

Definition internal_server_error : Error -> Async Response :=
  fun error => mret (res_status_json 500 (error_body "Internal Server Error")).

(** app.get("/", ...) *)
Definition get_root (req : Request) : Async Response :=
  mret (res_json (JString "http://localhost:3000/api-docs")).

(** app.get("/pokemons", ...) *)
Definition get_pokemons (req : Request) : Async Response :=
  try_catch
    (pokemons ← exec (find Everything);
     mret (res_json (JArray pokemons)))
    internal_server_error.

(** app.get("/pokemons/20", ...) *)
Definition get_pokemons_20 (req : Request) : Async Response :=
  try_catch
    (let page := or_default (parseInt (ToString (query req !! "page"))) 1 in
     let limit := 20 in
     let skip := (page - 1) * limit in
     pokemons ← exec (Store.limit limit (Store.skip skip (find Everything)));
     mret (res_json (JObject [
       ("page", JNumber page);
       ("limit", JNumber limit);
       ("count", JNumber (Z.of_nat (List.length pokemons)));
       ("data", JArray pokemons)])))
    internal_server_error.

(** app.get("/pokemons/search", ...) *)
Definition get_pokemons_search (req : Request) : Async Response :=
  try_catch
    (q ← call_trim (or_empty (query req !! "name"));
     if is_empty q
     then mret (res_status_json 400 (error_body "Query param 'name' is required"))
     else
       regex ← new_RegExp q;
       results ← exec (find (AnyOf [
         Where ["name"; "english"] (Matches regex);
         Where ["name"; "french"] (Matches regex);
         Where ["name"; "japanese"] (Matches regex);
         Where ["name"; "chinese"] (Matches regex)]));
       mret (res_json (JArray results)))
    internal_server_error.

(** app.post("/pokemons", ...) *)
Definition post_pokemons (req : Request) : Async Response :=
  try_catch
    (created ← create (body req);
     mret (res_status_json 201 created))
    (fun error => mret (res_status_json 400 (error_body (message error)))).

(** app.get("/pokemons/:id", ...) *)
Definition get_pokemons_id (req : Request) : Async Response :=
  try_catch
    (let pokeId := parseInt (id_param req) in
     poke ← findOne (Where ["id"] (Equals pokeId));
     match poke with
     | Some doc => mret (res_json doc)
     | None => mret (res_status_json 404 (error_body "Pokemon not found"))
     end)
    internal_server_error.

(** app.put("/pokemons/:id", ...) *)
Definition put_pokemons_id (req : Request) : Async Response :=
  try_catch
    (let pokeId := parseInt (id_param req) in
     updated ← findOneAndUpdate (Where ["id"] (Equals pokeId)) (body req)
                 {| new := true; runValidators := true; upsert := false |};
     match updated with
     | None => mret (res_status_json 404 (error_body "Pokemon not found"))
     | Some doc => mret (res_json doc)
     end)
    (fun error => mret (res_status_json 400 (error_body (message error)))).

(** app.delete("/pokemons/:id", ...) *)
Definition delete_pokemons_id (req : Request) : Async Response :=
  try_catch
    (let pokeId := parseInt (id_param req) in
     deletedPokemon ← findOneAndDelete (Where ["id"] (Equals pokeId));
     match deletedPokemon with
     | Some _ =>
         mret (res_json (JObject [
           ("message", JString "Pokemon deleted successfully");
           ("id", number_to_json pokeId)]))
     | None => mret (res_status_json 404 (error_body "Pokemon not found"))
     end)
    internal_server_error.
End Handlers.

(* ===================================================================== *)
(** ** Routing *)
(* ===================================================================== *)

Module Router.

Inductive Segment : Type :=
| Literal (s : string)
| Param (name : string).

(** What a layer of the application hands the request to. *)
Inductive Endpoint : Type :=
| Assets | ApiDocs                       (* mounted middleware *)
| Root | ListAll | Paginated | Search | CreateOne
| GetById | UpdateById | DeleteById.

Inductive Layer : Type :=
| Use (prefix : list string) (e : Endpoint)                     (* app.use(prefix, ...) *)
| Route (m : Method) (pattern : list Segment) (e : Endpoint).   (* app.get(path, ...) etc. *)

(** The layers of [app] in the order of registration. *)
Definition layers : list Layer := [
  Use ["assets"] Assets;
  Use ["api-docs"] ApiDocs;
  Route GET [] Root;
  Route GET [Literal "pokemons"] ListAll;
  Route GET [Literal "pokemons"; Literal "20"] Paginated;
  Route GET [Literal "pokemons"; Literal "search"] Search;
  Route POST [Literal "pokemons"] CreateOne;
  Route GET [Literal "pokemons"; Param "id"] GetById;
  Route PUT [Literal "pokemons"; Param "id"] UpdateById;
  Route DELETE [Literal "pokemons"; Param "id"] DeleteById
].

Definition method_eqb (a b : Method) : bool :=
  match a, b with
  | GET, GET | POST, POST | PUT, PUT | DELETE, DELETE => true
  | _, _ => false
  end.

(** Route paths are matched without regard to letter case. *)
Definition same_text (a b : string) : bool :=
  forallb id (zip_with same_letter (list_ascii_of_string a) (list_ascii_of_string b))
  && Nat.eqb (String.length a) (String.length b).

(** A route pattern against the whole path; the parameters it binds. *)
Fixpoint match_route (pattern : list Segment) (p : list string)
    (bound : gmap string string) : option (gmap string string) :=
  match pattern, p with
  | [], [] => Some bound
  | Literal s :: pattern', x :: p' =>
      if same_text s x then match_route pattern' p' bound else None
  | Param name :: pattern', x :: p' =>
      if is_empty x then None else match_route pattern' p' (<[name := x]> bound)
  | _, _ => None
  end.

(** A mount prefix against the start of the path. *)
Fixpoint match_prefix (prefix p : list string) : bool :=
  match prefix, p with
  | [], _ => true
  | s :: prefix', x :: p' => same_text s x && match_prefix prefix' p'
  | _ :: _, [] => false
  end.

Definition accepts (l : Layer) (m : Method) (p : list string)
  : option (Endpoint * gmap string string) :=
  match l with
  | Use prefix e => if match_prefix prefix p then Some (e, ∅) else None
  | Route m' pattern e =>
      if method_eqb m m'
      then (fun ps => (e, ps)) <$> match_route pattern p ∅
      else None
  end.

(** The first layer that accepts the request takes it. *)
Fixpoint first_match (ls : list Layer) (m : Method) (p : list string)
  : option (Endpoint * gmap string string) :=
  match ls with
  | [] => None
  | l :: ls' =>
      match accepts l m p with
      | Some r => Some r
      | None => first_match ls' m p
      end
  end.

Definition dispatch (m : Method) (p : list string)
  : option (Endpoint * gmap string string) :=
  first_match layers m p.

End Router.

Section Application.
Context `{Schema} `{RegExpEngine}.

(** The handler registered for an endpoint; the mounted middleware is
    not part of [src/index.js]. *)
Definition handler (e : Router.Endpoint) : option (Request -> Async Response) :=
  match e with
  | Router.Assets | Router.ApiDocs => None
  | Router.Root => Some get_root
  | Router.ListAll => Some get_pokemons
  | Router.Paginated => Some get_pokemons_20
  | Router.Search => Some get_pokemons_search
  | Router.CreateOne => Some post_pokemons
  | Router.GetById => Some get_pokemons_id
  | Router.UpdateById => Some put_pokemons_id
  | Router.DeleteById => Some delete_pokemons_id
  end.

Definition with_params (req : Request) (ps : gmap string string) : Request :=
  {| method := method req; path := path req; query := query req;
     params := ps; body := body req |}.

(** The application on a request: the answer of the handler the router
    picks; [None] when no handler of [src/index.js] takes the request. *)
Definition app (req : Request) : option (Async Response) :=
  match Router.dispatch (method req) (path req) with
  | Some (e, ps) =>
      match handler e with
      | Some h => Some (h (with_params req ps))
      | None => None
      end
  | None => None
  end.
End Application.

(* ===================================================================== *)
(** ** A schema and an engine to run the service on *)
(* ===================================================================== *)

Module PokemonSchema.

Definition is_string (v : JSON) : bool :=
  match v with JString _ => true | _ => false end.

Definition is_number (v : JSON) : bool :=
  match v with JNumber _ => true | _ => false end.

Definition is_stat (v : JSON) : bool :=
  match v with JNumber z => (0 <=? z)%Z | _ => false end.

Definition languages : list string := ["english"; "french"; "japanese"; "chinese"].

Definition stats : list string :=
  ["HP"; "Attack"; "Defense"; "SpecialAttack"; "SpecialDefense"; "Speed"].

(** A nested object: the declared keys are kept when their values have
    the declared type. *)
Definition cast_object (keys : list string) (ok : JSON -> bool) (v : JSON) : option JSON :=
  match v with
  | JObject ms =>
      let kept := List.filter (fun kv => existsb (String.eqb (fst kv)) keys) ms in
      if forallb (fun kv => ok (snd kv)) kept then Some (JObject kept) else None
  | _ => None
  end.

Definition cast_path (p : string) (v : JSON) : option JSON :=
  if String.eqb p "id" then (if is_number v then Some v else None)
  else if String.eqb p "name" then cast_object languages is_string v
  else if String.eqb p "type" then
    match v with
    | JArray items => if forallb is_string items then Some v else None
    | _ => None
    end
  else if String.eqb p "base" then cast_object stats is_number v
  else if String.eqb p "image" then (if is_string v then Some v else None)
  else None.

Definition paths : list string := ["id"; "name"; "type"; "base"; "image"].

(** The declared paths present in the body, cast; other members are
    dropped. *)
Fixpoint cast_paths (ps : list string) (b : JSON) : string + list (string * JSON) :=
  match ps with
  | [] => inr []
  | p :: ps' =>
      match member p b with
      | None => cast_paths ps' b
      | Some v =>
          match cast_path p v with
          | None => inl ("Cast failed at path " ++ p)
          | Some v' =>
              match cast_paths ps' b with
              | inl msg => inl msg
              | inr fields => inr ((p, v') :: fields)
              end
          end
      end
  end.

(** The statistics are not negative. *)
Definition validate (b : JSON) : option string :=
  match member "base" b with
  | Some (JObject ms) =>
      if forallb (fun kv => negb (existsb (String.eqb (fst kv)) stats) || is_stat (snd kv)) ms
      then None
      else Some "Validation failed: base"
  | _ => None
  end.

(** [doc.k = v] *)
Fixpoint assign_member (k : string) (v : JSON) (ms : list (string * JSON)) : list (string * JSON) :=
  match ms with
  | [] => [(k, v)]
  | (k', v') :: ms' =>
      if String.eqb k' k then (k, v) :: ms' else (k', v') :: assign_member k v ms'
  end.

Definition assign (fields : list (string * JSON)) (doc : JSON) : JSON :=
  match doc with
  | JObject ms => JObject (fold_left (fun acc kv => assign_member (fst kv) (snd kv) acc) fields ms)
  | _ => doc
  end.

(** Modelled from the spec: [src/schema/pokemon.js] is not among the
    sources. This is the record of section 3 of the spec: an integer
    [id], [name] from language to string, [type] a sequence of strings,
    [base] from statistic to a non-negative integer, [image] a string;
    members the schema does not declare are dropped, and the store adds
    its version key. *)
#[export] Instance pokemon : Schema := {|
  cast_document b :=
    match b with
    | JObject _ =>
        match cast_paths paths b with
        | inl msg => inl msg
        | inr fields =>
            match validate b with
            | Some msg => inl msg
            | None => inr (JObject (fields ++ [("__v", JNumber 0)])%list)
            end
        end
    | _ => inl "Document must be an object"
    end;
  cast_update b :=
    match cast_paths paths b with
    | inl msg => inl msg
    | inr fields => inr (assign fields)
    end;
  update_validators := validate
|}.

End PokemonSchema.

(** An engine that knows the embedded fragment only: every other pattern
    is refused. *)
Definition fragment_only : RegExpEngine := {| beyond := fun _ => None |}.

(* ===================================================================== *)
(** ** Notions the properties are stated with *)
(* ===================================================================== *)

(** What is left of the text once [parseInt] has skipped the white space
    and read the sign. *)
Definition after_sign (input : string) : list ascii :=
  match dropWhile isWhiteSpace (list_ascii_of_string input) with
  | "-"%char :: rest => rest
  | "+"%char :: rest => rest
  | l => l
  end.

(** The text is numeric for [parseInt] when a digit comes next. *)
Definition numeric (input : string) : bool :=
  match after_sign input with
  | c :: _ => isDigit c
  | [] => false
  end.









(** The document carries the number [n] as its [id]. *)
Definition has_id (n : Z) (doc : JSON) : Prop :=
  get ["id"] doc = Some (JNumber n).

(** The filter [{ id: pokeId }] of the routes with an id. *)
Definition id_filter (pokeId : Number) : Filter :=
  Where ["id"] (Equals pokeId).


(** The options the update route passes to [findOneAndUpdate]. *)
Definition update_options : UpdateOptions :=
  {| new := true; runValidators := true; upsert := false |}.

(** The request with the page parameter taken out. *)
Definition without_page (req : Request) : Request :=
  {| method := method req; path := path req; query := delete "page" (query req);
     params := params req; body := body req |}.

(* ===================================================================== *)
(** ** Sample data *)
(* ===================================================================== *)

Module Sample.

Definition bulbizarre : JSON := JObject [
  ("id", JNumber 1);
  ("name", JObject [("english", JString "Bulbasaur"); ("french", JString "Bulbizarre")]);
  ("type", JArray [JString "Grass"; JString "Poison"]);
  ("image", JString "http://localhost:3000/assets/pokemons/1.png")].

Definition reptincel : JSON := JObject [
  ("id", JNumber 5);
  ("name", JObject [("english", JString "Charmeleon"); ("french", JString "Reptincel")]);
  ("type", JArray [JString "Fire"]);
  ("image", JString "http://localhost:3000/assets/pokemons/5.png")].

Definition rattatac : JSON := JObject [
  ("id", JNumber 20);
  ("name", JObject [("english", JString "Raticate"); ("french", JString "Rattatac")]);
  ("type", JArray [JString "Normal"]);
  ("image", JString "http://localhost:3000/assets/pokemons/20.png")].

(** The body of the scenario of the spec. *)
Definition pikachu : JSON := JObject [
  ("id", JNumber 25);
  ("name", JObject [("french", JString "Pikachu")]);
  ("type", JArray [JString "Electric"]);
  ("base", JObject [("HP", JNumber 35); ("Attack", JNumber 55); ("Defense", JNumber 40);
                    ("SpecialAttack", JNumber 50); ("SpecialDefense", JNumber 50);
                    ("Speed", JNumber 90)]);
  ("image", JString "http://localhost:3000/assets/pokemons/25.png")].

(** A record that already carries the id 25. *)
Definition raichu : JSON := JObject [
  ("id", JNumber 25);
  ("name", JObject [("french", JString "Raichu")]);
  ("type", JArray [JString "Electric"]);
  ("image", JString "http://localhost:3000/assets/pokemons/26.png")].

(** A store that can be reached and has answered no call yet. *)
Definition online (docs : list JSON) : World :=
  {| collection := docs; outage := None; journal := [] |}.

Definition offline (docs : list JSON) (msg : string) : World :=
  {| collection := docs; outage := Some msg; journal := [] |}.

Definition request (m : Method) (p : list string)
    (q : list (string * QueryValue)) (b : JSON) : Request :=
  {| method := m; path := p; query := list_to_map q; params := ∅; body := b |}.

(** A request as a handler receives it from the router for [/pokemons/:id]. *)
Definition by_id (m : Method) (id : string) (b : JSON) : Request :=
  {| method := m; path := ["pokemons"; id]; query := ∅;
     params := {[ "id" := id ]}; body := b |}.

End Sample.

(* ===================================================================== *)
(** ** Running requests in sequence *)
(* ===================================================================== *)

(** The application on a list of requests, each on the world the
    previous one left; the answers in order. A request that no handler
    of [src/index.js] takes leaves the world as it is. *)
Fixpoint serve `{Schema} `{RegExpEngine} (reqs : list Request) (w : World)
  : list (option (Outcome Response)) :=
  match reqs with
  | [] => []
  | req :: reqs' =>
      match app req with
      | Some run => let '(o, w') := run w in Some o :: serve reqs' w'
      | None => None :: serve reqs' w
      end
  end.


(* ===================================================================== *)
(** ** Notions for the routes as a whole *)
(* ===================================================================== *)

(** The statuses the annotations of [src/index.js] document for a route
    (the root route, which has none, answers 200). *)
Definition documented (e : Router.Endpoint) : list Z :=
  match e with
  | Router.Assets | Router.ApiDocs => []
  | Router.Root => [200]
  | Router.ListAll => [200; 500]
  | Router.Paginated => [200; 500]
  | Router.Search => [200; 400; 500]
  | Router.CreateOne => [201; 400]
  | Router.GetById => [200; 404; 500]
  | Router.UpdateById => [200; 404; 400; 500]
  | Router.DeleteById => [200; 404; 500]
  end.

(** The routes that only read. *)
Definition reads_only (e : Router.Endpoint) : bool :=
  match e with
  | Router.Root | Router.ListAll | Router.Paginated | Router.Search | Router.GetById => true
  | _ => false
  end.

(** The journal grew by at most one call. *)
Definition at_most_one_call (before after : list Command) : Prop :=
  after = before \/ exists c, after = (before ++ [c])%list.

(** The page a request to the paginated route asks for. *)
Definition requested_page (req : Request) : Z :=
  or_default (parseInt (ToString (query req !! "page"))) 1.

(** The records in the [data] member of an answer. *)
Definition data_of (o : option (Outcome Response)) : list JSON :=
  match o with
  | Some (Returned r) =>
      match member "data" (json r) with
      | Some (JArray records) => records
      | _ => []
      end
  | _ => []
  end.


(** The generic answer to a failure. *)
Definition server_error : Response :=
  {| status := 500; json := JObject [("error", JString "Internal Server Error")] |}.

Definition not_found : Response :=
  {| status := 404; json := JObject [("error", JString "Pokemon not found")] |}.

(** What can be said of a route whatever the request and the world: it
    answers, with a documented status, after at most one call on the
    model, and a route that only reads leaves the collection as it is. *)
Definition summary (e : Router.Endpoint) (h : Request -> Async Response) : Prop :=
  forall req w, exists r w',
    h req w = (Returned r, w')
    /\ In (status r) (documented e)
    /\ at_most_one_call (journal w) (journal w')
    /\ outage w' = outage w
    /\ (reads_only e = true -> collection w' = collection w).


(** The body of the scenario as the sample schema stores it. *)
Definition stored_pikachu : JSON := JObject [
  ("id", JNumber 25);
  ("name", JObject [("french", JString "Pikachu")]);
  ("type", JArray [JString "Electric"]);
  ("base", JObject [("HP", JNumber 35); ("Attack", JNumber 55); ("Defense", JNumber 40);
                    ("SpecialAttack", JNumber 50); ("SpecialDefense", JNumber 50);
                    ("Speed", JNumber 90)]);
  ("image", JString "http://localhost:3000/assets/pokemons/25.png");
  ("__v", JNumber 0)].

(** A GET request to [/pokemons/20]. *)
Definition asks_for_a_page (req : Request) : Prop :=
  method req = GET /\ path req = ["pokemons"; "20"].

(** The text does not begin with a digit (the empty text does not). *)
Definition no_leading_digit (t : string) : bool :=
  match t with
  | EmptyString => true
  | String c _ => negb (isDigit c)
  end.


(* ===================================================================== *)
(** ** The built-ins and the model on examples *)
(* ===================================================================== *)

Example parseInt_examples :
  parseInt "25" = Int 25 /\ parseInt "  -12abc" = Int (-12) /\ parseInt "+7" = Int 7
  /\ parseInt "1e3" = Int 1 /\ parseInt "search" = NaN /\ parseInt "" = NaN
  /\ parseInt "undefined" = NaN /\ parseInt "-" = NaN.
Proof. repeat split; reflexivity. Qed.

Example trim_examples :
  trim "  bulb " = "bulb" /\ trim "   " = "" /\ trim "a b" = "a b".
Proof. repeat split; reflexivity. Qed.

Example pattern_examples :
  Pattern.parse_pattern "a|b*" =
    Pattern.Parsed (Pattern.Alt (Pattern.Seq (Pattern.Char "a") Pattern.Empty)
                      (Pattern.Seq (Pattern.Star (Pattern.Char "b")) Pattern.Empty))
  /\ Pattern.parse_pattern "(" = Pattern.SyntaxError "Unterminated group"
  /\ Pattern.parse_pattern "a)" = Pattern.SyntaxError "Unmatched ')'"
  /\ Pattern.parse_pattern "a**" = Pattern.SyntaxError "Nothing to repeat"
  /\ Pattern.parse_pattern "^*" = Pattern.SyntaxError "Nothing to repeat"
  /\ Pattern.parse_pattern "[a-z]" = Pattern.Beyond
  /\ Pattern.parse_pattern "\d" = Pattern.Beyond.
Proof. repeat split; reflexivity. Qed.

Example test_examples :
  (exists re, @RegExp_new fragment_only "b(a|i)z+a.*e$" = inr re
              /\ test re "Bulbizarre" = true /\ test re "Bulbasaur" = false)
  /\ (exists re, @RegExp_new fragment_only "^ulb" = inr re /\ test re "Bulbizarre" = false)
  /\ (exists re, @RegExp_new fragment_only "(a*)*c" = inr re /\ test re "aaaaaab" = false)
  /\ (exists re, @RegExp_new fragment_only "PIKA?" = inr re /\ test re "pikachu" = true).
Proof. repeat split; eexists; (split; [reflexivity|]); repeat split; reflexivity. Qed.

Example dispatch_examples :
  Router.dispatch POST ["pokemons"] = Some (Router.CreateOne, ∅)
  /\ Router.dispatch GET ["pokemons"; "25"] = Some (Router.GetById, {[ "id" := "25" ]})
  /\ Router.dispatch GET ["Pokemons"; "SEARCH"] = Some (Router.Search, ∅)
  /\ Router.dispatch DELETE ["pokemons"; "20"] = Some (Router.DeleteById, {[ "id" := "20" ]})
  /\ Router.dispatch GET ["assets"; "pokemons"; "1.png"] = Some (Router.Assets, ∅)
  /\ Router.dispatch GET ["pokemons"; "25"; "moves"] = None.
Proof. repeat split; vm_compute; reflexivity. Qed.

(** The scenario of the spec: create Pikachu, read it, delete it, read it
    again. *)
Example scenario :
  @serve PokemonSchema.pokemon fragment_only
    [Sample.request POST ["pokemons"] [] Sample.pikachu;
     Sample.request GET ["pokemons"; "25"] [] JNull;
     Sample.request DELETE ["pokemons"; "25"] [] JNull;
     Sample.request GET ["pokemons"; "25"] [] JNull]
    (Sample.online [])
  = [Some (Returned {| status := 201;
                       json := JObject [("id", JNumber 25);
                         ("name", JObject [("french", JString "Pikachu")]);
                         ("type", JArray [JString "Electric"]);
                         ("base", JObject [("HP", JNumber 35); ("Attack", JNumber 55);
                                           ("Defense", JNumber 40); ("SpecialAttack", JNumber 50);
                                           ("SpecialDefense", JNumber 50); ("Speed", JNumber 90)]);
                         ("image", JString "http://localhost:3000/assets/pokemons/25.png");
                         ("__v", JNumber 0)] |});
     Some (Returned {| status := 200;
                       json := JObject [("id", JNumber 25);
                         ("name", JObject [("french", JString "Pikachu")]);
                         ("type", JArray [JString "Electric"]);
                         ("base", JObject [("HP", JNumber 35); ("Attack", JNumber 55);
                                           ("Defense", JNumber 40); ("SpecialAttack", JNumber 50);
                                           ("SpecialDefense", JNumber 50); ("Speed", JNumber 90)]);
                         ("image", JString "http://localhost:3000/assets/pokemons/25.png");
                         ("__v", JNumber 0)] |});
     Some (Returned {| status := 200;
                       json := JObject [("message", JString "Pokemon deleted successfully");
                                        ("id", JNumber 25)] |});
     Some (Returned {| status := 404;
                       json := JObject [("error", JString "Pokemon not found")] |})].
Proof. vm_compute. reflexivity. Qed.

(* ===================================================================== *)
(** ** Facts about the built-ins *)
(* ===================================================================== *)

(** The steps of an awaited computation, written out. *)
Ltac unfold_async := unfold try_catch, mbind, async_bind.

Lemma parseInt_digits (input : string) :
  parseInt input = match takeWhile isDigit (after_sign input) with
                   | [] => NaN
                   | ds => Int ((match dropWhile isWhiteSpace (list_ascii_of_string input) with
                                 | "-"%char :: _ => -1
                                 | _ => 1
                                 end) * decimal ds)
                   end.
Proof.
  unfold parseInt, after_sign.
  destruct (dropWhile isWhiteSpace (list_ascii_of_string input)) as [|c rest]; [reflexivity|].
  destruct c as [[] [] [] [] [] [] [] []]; reflexivity.
Qed.

Lemma parseInt_NaN_iff (input : string) :
  parseInt input = NaN <-> numeric input = false.
Proof.
  rewrite parseInt_digits. unfold numeric.
  destruct (after_sign input) as [|c rest]; simpl; [tauto|].
  destruct (isDigit c); split; intros; congruence.
Qed.



(* ===================================================================== *)
(** ** The store *)
(* ===================================================================== *)

Lemma filter_everything (docs : list JSON) :
  List.filter (selects Everything) docs = docs.
Proof.
  induction docs as [|d docs IH]; [reflexivity|].
  change (d :: List.filter (selects Everything) docs = d :: docs).
  now rewrite IH.
Qed.

(** A query that skips [k >= 0] and limits to [n > 0] answers with the
    window of the collection, which it leaves as it is. *)
Lemma exec_window (f : Filter) (k n : Z) (w : World) :
  outage w = None -> 0 <= k -> 0 < n ->
  exec (limit n (skip k (find f))) w =
    (Returned (take (Z.to_nat n) (drop (Z.to_nat k) (List.filter (selects f) (collection w)))),
     MkWorld (collection w) None (journal w ++ [Find (limit n (skip k (find f)))])).
Proof.
  intros Hup Hk Hn. unfold exec, call. rewrite Hup. simpl.
  destruct (Z.ltb_spec k 0) as [Hlt|_]; [lia|].
  unfold window; simpl.
  destruct n as [|p|p]; try lia.
  rewrite Zabs2Nat.abs_nat_nonneg by lia. reflexivity.
Qed.

(* ===================================================================== *)
(** ** GET /pokemons/20 *)
(* ===================================================================== *)


(* ===================================================================== *)
(** ** Patterns without syntax characters *)
(* ===================================================================== *)









(* ===================================================================== *)
(** ** GET /pokemons/search *)
(* ===================================================================== *)





Lemma exec_find (f : Filter) (w : World) :
  outage w = None ->
  exec (find f) w =
    (Returned (List.filter (selects f) (collection w)),
     MkWorld (collection w) None (journal w ++ [Find (find f)])).
Proof.
  intros Hup. unfold exec, call. rewrite Hup. reflexivity.
Qed.


Section Search.
Context `{RegExpEngine}.


End Search.





(* ===================================================================== *)
(** ** Page zero *)
(* ===================================================================== *)

(** C10. A page parameter that [parseInt] reads as 0 (the text "0" for
    one) is treated as an absent one: the answer and the call on the
    store are those of the request without the parameter, the query sent
    skips no record, and the answer reports page 1. *)
Theorem page_zero_is_page_one (req : Request) (v : QueryValue) (w : World) :
  query req !! "page" = Some v ->
  parseInt (ToString (Some v)) = Int 0 ->
  get_pokemons_20 req w = get_pokemons_20 (without_page req) w
  /\ journal (snd (get_pokemons_20 req w)) =
       (journal w ++ [Find (limit 20 (skip 0 (find Everything)))])%list
  /\ (outage w = None ->
      fst (get_pokemons_20 req w) =
        Returned {| status := 200;
                    json := JObject [("page", JNumber 1);
                                     ("limit", JNumber 20);
                                     ("count", JNumber (Z.of_nat (List.length (take 20 (collection w)))));
                                     ("data", JArray (take 20 (collection w)))] |}).
Proof.
  intros Hpage Hzero.
  assert (Hreq : get_pokemons_20 req w =
                 try_catch
                   (pokemons ← exec (limit 20 (skip 0 (find Everything)));
                    mret (res_json (JObject [("page", JNumber 1); ("limit", JNumber 20);
                                             ("count", JNumber (Z.of_nat (List.length pokemons)));
                                             ("data", JArray pokemons)])))
                   internal_server_error w).
  { unfold get_pokemons_20. cbv zeta. rewrite Hpage, Hzero. reflexivity. }
  split; [|split].
  - rewrite Hreq. unfold get_pokemons_20, without_page. cbv zeta.
    simpl query. rewrite lookup_delete_eq. reflexivity.
  - rewrite Hreq. unfold try_catch, mbind, async_bind, exec, call.
    destruct (outage w); reflexivity.
  - intros Hup. rewrite Hreq. unfold_async.
    rewrite exec_window by (try assumption; lia).
    rewrite filter_everything. reflexivity.
Qed.

Lemma page_zero_is_page_one_witness :
  query (Sample.request GET ["pokemons"; "20"] [("page", QString "0")] JNull) !! "page"
    = Some (QString "0")
  /\ parseInt (ToString (Some (QString "0"))) = Int 0
  /\ get_pokemons_20 (Sample.request GET ["pokemons"; "20"] [("page", QString "0")] JNull)
       (Sample.online [Sample.bulbizarre])
     = get_pokemons_20
         (without_page (Sample.request GET ["pokemons"; "20"] [("page", QString "0")] JNull))
         (Sample.online [Sample.bulbizarre]).
Proof.
  assert (Hpage : query (Sample.request GET ["pokemons"; "20"] [("page", QString "0")] JNull)
                    !! "page" = Some (QString "0")) by (vm_compute; reflexivity).
  split; [exact Hpage|]. split; [reflexivity|].
  exact (proj1 (page_zero_is_page_one _ _ (Sample.online [Sample.bulbizarre]) Hpage eq_refl)).
Defined.

(* ===================================================================== *)
(** ** The routes with an id *)
(* ===================================================================== *)

Lemma holds_id (n : Z) (doc : JSON) :
  holds (Equals (Int n)) (get ["id"] doc) = true <-> has_id n doc.
Proof.
  unfold has_id. destruct (get ["id"] doc) as [[]|]; simpl;
    try (split; [discriminate | intros [=]]).
  rewrite Z.eqb_eq. split; [intros ->; reflexivity | intros [=]; assumption].
Qed.

Lemma holds_NaN (v : option JSON) : holds (Equals NaN) v = false.
Proof. destruct v as [[]|]; reflexivity. Qed.

Lemma selects_id_filter (pokeId : Number) (doc : JSON) :
  selects (id_filter pokeId) doc = holds (Equals pokeId) (get ["id"] doc).
Proof. reflexivity. Qed.

Lemma find_app_none {A} (p : A -> bool) (l1 l2 : list A) :
  (forall x, In x l1 -> p x = false) ->
  List.find p (l1 ++ l2) = List.find p l2.
Proof.
  induction l1 as [|x l1 IH]; intros Hno; [reflexivity|]. simpl.
  rewrite (Hno x) by (left; reflexivity).
  apply IH. intros y Hy. apply Hno. right. exact Hy.
Qed.

Lemma find_none_iff {A} (p : A -> bool) (l : list A) :
  (forall x, In x l -> p x = false) -> List.find p l = None.
Proof.
  intros Hno. rewrite <- (app_nil_r l). rewrite find_app_none by exact Hno. reflexivity.
Qed.

Lemma findOne_run (f : Filter) (w : World) :
  outage w = None ->
  findOne f w =
    (Returned (List.find (selects f) (collection w)),
     MkWorld (collection w) None (journal w ++ [FindOne f])).
Proof. intros Hup. unfold findOne, call. rewrite Hup. reflexivity. Qed.

(** What the route answers, by what [findOne] finds. *)
Lemma get_pokemons_id_run (req : Request) (w : World) :
  outage w = None ->
  get_pokemons_id req w =
    (Returned match List.find (selects (id_filter (parseInt (id_param req)))) (collection w) with
              | Some doc => res_json doc
              | None => res_status_json 404 (error_body "Pokemon not found")
              end,
     MkWorld (collection w) None
       (journal w ++ [FindOne (id_filter (parseInt (id_param req)))])).
Proof.
  intros Hup. unfold get_pokemons_id. unfold_async. cbv zeta.
  fold (id_filter (parseInt (id_param req))).
  rewrite (findOne_run _ _ Hup).
  destruct (List.find _ _); reflexivity.
Qed.



(* ===================================================================== *)
(** ** DELETE /pokemons/:id *)
(* ===================================================================== *)


Lemma delete_first_at (p : JSON -> bool) (pre post : list JSON) (d : JSON) :
  (forall x, In x pre -> p x = false) -> p d = true ->
  delete_first p (pre ++ d :: post) = (Some d, (pre ++ post)%list).
Proof.
  induction pre as [|x pre IH]; intros Hpre Hd; simpl.
  - rewrite Hd. reflexivity.
  - rewrite (Hpre x) by (left; reflexivity).
    rewrite IH; [reflexivity | | exact Hd]. intros y Hy. apply Hpre. right. exact Hy.
Qed.

Lemma delete_pokemons_id_run (req : Request) (w : World) :
  outage w = None ->
  delete_pokemons_id req w =
    (Returned match fst (delete_first (selects (id_filter (parseInt (id_param req)))) (collection w)) with
              | Some _ =>
                  res_json (JObject [("message", JString "Pokemon deleted successfully");
                                     ("id", number_to_json (parseInt (id_param req)))])
              | None => res_status_json 404 (error_body "Pokemon not found")
              end,
     MkWorld (snd (delete_first (selects (id_filter (parseInt (id_param req)))) (collection w)))
       None (journal w ++ [FindOneAndDelete (id_filter (parseInt (id_param req)))])).
Proof.
  intros Hup. unfold delete_pokemons_id. unfold_async. cbv zeta.
  fold (id_filter (parseInt (id_param req))).
  unfold findOneAndDelete, call. rewrite Hup.
  destruct (delete_first _ _) as [[doc|] docs']; reflexivity.
Qed.

Lemma not_has_id (n : Z) (doc : JSON) :
  ~ has_id n doc -> selects (id_filter (Int n)) doc = false.
Proof.
  intros Hno. rewrite selects_id_filter.
  destruct (holds (Equals (Int n)) (get ["id"] doc)) eqn:Hh; [|reflexivity].
  apply holds_id in Hh. contradiction.
Qed.



(* ===================================================================== *)
(** ** POST /pokemons, then GET /pokemons/:id *)
(* ===================================================================== *)



Lemma post_pokemons_run `{Schema} (req : Request) (w : World) (doc : JSON) :
  outage w = None ->
  cast_document (body req) = inr doc ->
  post_pokemons req w =
    (Returned {| status := 201; json := doc |},
     MkWorld (collection w ++ [doc]) None (journal w ++ [Create (body req)])).
Proof.
  intros Hup Hdoc. unfold post_pokemons, try_catch, mbind, async_bind, create, call.
  rewrite Hdoc, Hup. reflexivity.
Qed.



(** A second record with an id the collection already holds: the create
    succeeds, and get-by-id answers with the record stored first. *)
Lemma second_record_same_id :
  exists w1 w2,
    @post_pokemons PokemonSchema.pokemon (Sample.request POST ["pokemons"] [] Sample.pikachu)
      (Sample.online [Sample.raichu])
    = (Returned {| status := 201;
                   json := JObject [("id", JNumber 25);
                     ("name", JObject [("french", JString "Pikachu")]);
                     ("type", JArray [JString "Electric"]);
                     ("base", JObject [("HP", JNumber 35); ("Attack", JNumber 55);
                                       ("Defense", JNumber 40); ("SpecialAttack", JNumber 50);
                                       ("SpecialDefense", JNumber 50); ("Speed", JNumber 90)]);
                     ("image", JString "http://localhost:3000/assets/pokemons/25.png");
                     ("__v", JNumber 0)] |}, w1)
    /\ get_pokemons_id (Sample.by_id GET "25" JNull) w1
       = (Returned {| status := 200; json := Sample.raichu |}, w2).
Proof. eexists. eexists. split; vm_compute; reflexivity. Qed.


(* ===================================================================== *)
(** ** PUT /pokemons/:id *)
(* ===================================================================== *)


Section Update.
Context `{Schema}.

(** The catch clause of the route: whatever the call throws becomes a
    400 that carries the message. *)
Lemma put_pokemons_id_catch (req : Request) (w : World) :
  put_pokemons_id req w =
    match findOneAndUpdate (id_filter (parseInt (id_param req))) (body req)
            update_options w with
    | (Returned (Some doc), w') => (Returned (res_json doc), w')
    | (Returned None, w') =>
        (Returned (res_status_json 404 (error_body "Pokemon not found")), w')
    | (Thrown e, w') => (Returned (res_status_json 400 (error_body (message e))), w')
    end.
Proof.
  unfold put_pokemons_id. unfold_async. cbv zeta.
  fold (id_filter (parseInt (id_param req))). fold update_options.
  destruct (findOneAndUpdate _ _ _ w) as [[[doc|]|e] w']; reflexivity.
Qed.

(** The call of the route, case by case. *)
Lemma findOneAndUpdate_run (f : Filter) (update : JSON) (w : World) :
  findOneAndUpdate f update update_options w =
    let log := (journal w ++ [FindOneAndUpdate f update update_options])%list in
    match cast_update update with
    | inl msg => (Thrown (MkError msg), MkWorld (collection w) (outage w) log)
    | inr change =>
        match update_validators update with
        | Some msg => (Thrown (MkError msg), MkWorld (collection w) (outage w) log)
        | None =>
            match outage w with
            | Some msg => (Thrown (MkError msg), MkWorld (collection w) (outage w) log)
            | None =>
                match update_first (selects f) change (collection w) with
                | (Some (_, after), docs') => (Returned (Some after), MkWorld docs' None log)
                | (None, _) => (Returned None, MkWorld (collection w) None log)
                end
            end
        end
    end.
Proof.
  unfold findOneAndUpdate, call, update_options. simpl runValidators.
  destruct (cast_update update) as [msg|change]; [reflexivity|].
  destruct (update_validators update) as [msg|]; [reflexivity|].
  destruct (outage w) as [msg|]; [reflexivity|].
  destruct (update_first (selects f) change (collection w)) as [[[before after]|] docs'];
    reflexivity.
Qed.


(** C8. On the update route every failure of the update call, be it
    the cast or a validator refusing the body or the store failing, is
    answered with 400 and [{error: message}], the message being that of
    the failure; the route never answers 500: its status is 200, 404
    or 400. *)
Theorem update_failures_are_client_errors (req : Request) (w : World) :
  (forall (e : Error) (w' : World),
      findOneAndUpdate (id_filter (parseInt (id_param req))) (body req) update_options w
        = (Thrown e, w') ->
      put_pokemons_id req w =
        (Returned {| status := 400; json := JObject [("error", JString (message e))] |}, w'))
  /\ (forall msg, cast_update (body req) = inl msg ->
        fst (put_pokemons_id req w) =
          Returned {| status := 400; json := JObject [("error", JString msg)] |})
  /\ (forall change msg,
        cast_update (body req) = inr change ->
        update_validators (body req) = Some msg ->
        fst (put_pokemons_id req w) =
          Returned {| status := 400; json := JObject [("error", JString msg)] |})
  /\ (forall change msg,
        cast_update (body req) = inr change ->
        update_validators (body req) = None ->
        outage w = Some msg ->
        fst (put_pokemons_id req w) =
          Returned {| status := 400; json := JObject [("error", JString msg)] |})
  /\ (exists (r : Response) (w' : World),
        put_pokemons_id req w = (Returned r, w')
        /\ status r <> 500
        /\ (status r = 200 \/ status r = 404 \/ status r = 400)).
Proof.
  split; [|split; [|split; [|split]]].
  - intros e w' Hthrown. rewrite put_pokemons_id_catch, Hthrown. reflexivity.
  - intros msg Hcast.
    rewrite put_pokemons_id_catch, findOneAndUpdate_run. cbv zeta.
    rewrite Hcast. reflexivity.
  - intros change msg Hcast Hvalid.
    rewrite put_pokemons_id_catch, findOneAndUpdate_run. cbv zeta.
    rewrite Hcast, Hvalid. reflexivity.
  - intros change msg Hcast Hvalid Hdown.
    rewrite put_pokemons_id_catch, findOneAndUpdate_run. cbv zeta.
    rewrite Hcast, Hvalid, Hdown. reflexivity.
  - rewrite put_pokemons_id_catch.
    destruct (findOneAndUpdate _ _ _ w) as [[[doc|]|e] w'];
      eexists; eexists; (split; [reflexivity|]); simpl; split; try discriminate; tauto.
Qed.
End Update.




(* ===================================================================== *)
(** ** Route precedence *)
(* ===================================================================== *)

(** C9 (amended). The literal paths are registered before the path with
    a parameter, which would accept them too: a GET request to
    [/pokemons/20] is taken by the paginated list and one to
    [/pokemons/search] by the search, never by get-by-id. Were it given
    them, get-by-id would read "search" as [NaN] and answer 404 on a
    store that answers, and would read "20" as the integer 20 and answer
    with a record of id 20 when the collection has one, 404 when it has
    none. *)
Theorem literal_routes_first `{Schema} `{RegExpEngine} (req : Request) :
  method req = GET ->
  (path req = ["pokemons"; "20"] ->
     Router.dispatch (method req) (path req) = Some (Router.Paginated, ∅)
     /\ app req = Some (get_pokemons_20 (with_params req ∅)))
  /\ (path req = ["pokemons"; "search"] ->
     Router.dispatch (method req) (path req) = Some (Router.Search, ∅)
     /\ app req = Some (get_pokemons_search (with_params req ∅)))
  /\ Router.accepts (Router.Route GET [Router.Literal "pokemons"; Router.Param "id"] Router.GetById)
       GET ["pokemons"; "20"] = Some (Router.GetById, {[ "id" := "20" ]})
  /\ Router.accepts (Router.Route GET [Router.Literal "pokemons"; Router.Param "id"] Router.GetById)
       GET ["pokemons"; "search"] = Some (Router.GetById, {[ "id" := "search" ]})
  /\ parseInt "search" = NaN
  /\ parseInt "20" = Int 20
  /\ (forall w, outage w = None ->
        fst (get_pokemons_id (with_params req {[ "id" := "search" ]}) w) =
          Returned {| status := 404; json := JObject [("error", JString "Pokemon not found")] |})
  /\ (forall w, outage w = None ->
        fst (get_pokemons_id (with_params req {[ "id" := "20" ]}) w) =
          Returned match List.find (selects (id_filter (Int 20))) (collection w) with
                   | Some doc => {| status := 200; json := doc |}
                   | None => {| status := 404;
                                json := JObject [("error", JString "Pokemon not found")] |}
                   end).
Proof.
  intros Hget.
  split; [|split; [|split; [|split; [|split; [|split; [|split]]]]]].
  - intros Hpath. unfold app. rewrite Hget, Hpath. split; reflexivity.
  - intros Hpath. unfold app. rewrite Hget, Hpath. split; reflexivity.
  - vm_compute. reflexivity.
  - vm_compute. reflexivity.
  - reflexivity.
  - reflexivity.
  - intros w Hup. rewrite (get_pokemons_id_run _ _ Hup). simpl fst.
    replace (parseInt (id_param (with_params req {[ "id" := "search" ]}))) with NaN
      by (vm_compute; reflexivity).
    rewrite find_none_iff; [reflexivity|].
    intros x _. exact (holds_NaN (get ["id"] x)).
  - intros w Hup. rewrite (get_pokemons_id_run _ _ Hup). simpl fst.
    replace (parseInt (id_param (with_params req {[ "id" := "20" ]}))) with (Int 20)
      by (vm_compute; reflexivity).
    destruct (List.find _ _); reflexivity.
Qed.

Lemma literal_routes_first_witness :
  method (Sample.request GET ["pokemons"; "20"] [("page", QString "2")] JNull) = GET
  /\ @app PokemonSchema.pokemon fragment_only
       (Sample.request GET ["pokemons"; "20"] [("page", QString "2")] JNull)
     = Some (get_pokemons_20
               (with_params (Sample.request GET ["pokemons"; "20"] [("page", QString "2")] JNull) ∅)).
Proof.
  split; [reflexivity|].
  exact (proj2 (proj1 (@literal_routes_first PokemonSchema.pokemon fragment_only
                         (Sample.request GET ["pokemons"; "20"] [("page", QString "2")] JNull)
                         eq_refl) eq_refl)).
Defined.

(** Given the segment "20", get-by-id reads the integer 20 and answers
    with the record of that id. *)
Lemma segment_20_finds_record :
  parseInt "20" = Int 20
  /\ get_pokemons_id (Sample.by_id GET "20" JNull) (Sample.online [Sample.rattatac]) =
       (Returned {| status := 200; json := Sample.rattatac |},
        {| collection := [Sample.rattatac]; outage := None;
           journal := [FindOne (id_filter (Int 20))] |}).
Proof. split; vm_compute; reflexivity. Qed.

(** C9 as stated fails in its aside: get-by-id does not read the segment
    "20" as the value that matches no record; it reads the integer 20,
    and answers 200 when a record has that id. *)
Lemma segment_20_is_not_the_sentinel :
  ~ (forall (segment : string) (w : World),
        In segment ["20"; "search"] ->
        outage w = None ->
        parseInt segment = NaN
        /\ fst (get_pokemons_id (Sample.by_id GET segment JNull) w) =
             Returned {| status := 404; json := JObject [("error", JString "Pokemon not found")] |}).
Proof.
  intros Hall.
  destruct (Hall "20" (Sample.online [Sample.rattatac])) as [_ H404].
  - left. reflexivity.
  - reflexivity.
  - rewrite (proj2 segment_20_finds_record) in H404. discriminate H404.
Qed.

(* ===================================================================== *)
(** ** Every route, on every request *)
(* ===================================================================== *)

Ltac unfold_handler :=
  unfold try_catch, mbind, async_bind, exec, findOne, create, findOneAndUpdate,
    findOneAndDelete, call, internal_server_error, mret, async_ret, throw.

Ltac answered :=
  eexists; eexists; (split; [reflexivity|]); simpl; unfold at_most_one_call;
  repeat split;
  try (left; reflexivity);
  try (right; eexists; reflexivity);
  try tauto; try congruence.

Section Summary.
Context `{Schema} `{RegExpEngine}.

Lemma summary_root : summary Router.Root get_root.
Proof. intros req w. unfold get_root, mret, async_ret. answered. Qed.

Lemma summary_list : summary Router.ListAll get_pokemons.
Proof.
  intros req w. unfold get_pokemons. unfold_handler. simpl.
  destruct (outage w) eqn:Hout; simpl; answered.
Qed.

Lemma summary_paginated : summary Router.Paginated get_pokemons_20.
Proof.
  intros req w. unfold get_pokemons_20. unfold_handler. simpl.
  destruct (outage w) eqn:Hout; simpl; [answered|].
  destruct (_ <? 0)%Z; simpl; answered.
Qed.

Lemma summary_search : summary Router.Search get_pokemons_search.
Proof.
  intros req w. unfold get_pokemons_search. unfold_handler. unfold call_trim.
  destruct (or_empty (query req !! "name")) as [s|items|]; unfold mret, async_ret, throw;
    simpl; try answered.
  destruct (is_empty (trim s)); [answered|].
  unfold new_RegExp. destruct (RegExp_new (trim s)) as [msg|re];
    unfold mret, async_ret, throw; simpl; [answered|].
  destruct (outage w) eqn:Hout; simpl; answered.
Qed.

Lemma summary_create : summary Router.CreateOne post_pokemons.
Proof.
  intros req w. unfold post_pokemons. unfold_handler.
  destruct (cast_document (body req)) as [msg|doc]; simpl; [answered|].
  destruct (outage w) eqn:Hout; simpl; answered.
Qed.

Lemma summary_get : summary Router.GetById get_pokemons_id.
Proof.
  intros req w. unfold get_pokemons_id. unfold_handler. simpl.
  destruct (outage w) eqn:Hout; simpl; [answered|].
  destruct (List.find _ _); answered.
Qed.

Lemma summary_update : summary Router.UpdateById put_pokemons_id.
Proof.
  intros req w. unfold put_pokemons_id. unfold_handler. simpl.
  destruct (cast_update (body req)) as [msg|change]; simpl; [answered|].
  destruct (update_validators (body req)) as [msg|]; simpl; [answered|].
  destruct (outage w) eqn:Hout; simpl; [answered|].
  destruct (update_first _ _ _) as [[[before after]|] docs']; simpl; answered.
Qed.

Lemma summary_delete : summary Router.DeleteById delete_pokemons_id.
Proof.
  intros req w. unfold delete_pokemons_id. unfold_handler. simpl.
  destruct (outage w) eqn:Hout; simpl; [answered|].
  destruct (delete_first _ _) as [[doc|] docs']; simpl; answered.
Qed.

Lemma summary_handler (e : Router.Endpoint) (h : Request -> Async Response) :
  handler e = Some h -> summary e h.
Proof.
  destruct e; simpl; intros [=]; subst h;
    auto using summary_root, summary_list, summary_paginated, summary_search,
      summary_create, summary_get, summary_update, summary_delete.
Qed.
End Summary.

(** X1. Whatever the request and the state of the store, when the router
    hands the request to a handler of [src/index.js] the handler answers:
    nothing it calls throws past its catch clause, and the status of the
    answer is one that the annotation of the route documents. *)
Theorem every_route_answers `{Schema} `{RegExpEngine}
    (req : Request) (run : Async Response) (w : World) :
  app req = Some run ->
  exists e ps r w',
    Router.dispatch (method req) (path req) = Some (e, ps)
    /\ run w = (Returned r, w')
    /\ In (status r) (documented e).
Proof.
  unfold app. intros Happ.
  destruct (Router.dispatch (method req) (path req)) as [[e ps]|]; [|discriminate].
  destruct (handler e) as [h|] eqn:Hh; [|discriminate].
  injection Happ as <-.
  destruct (summary_handler e h Hh (with_params req ps) w) as (r & w' & Hrun & Hstatus & _).
  exists e, ps, r, w'. repeat split; assumption.
Qed.

Lemma every_route_answers_witness :
  @app PokemonSchema.pokemon fragment_only
    (Sample.request GET ["pokemons"; "search"] [("name", QArray ["a"; "b"])] JNull)
  = Some (@get_pokemons_search fragment_only
            (with_params
               (Sample.request GET ["pokemons"; "search"] [("name", QArray ["a"; "b"])] JNull) ∅))
  /\ exists e ps r w',
      Router.dispatch GET ["pokemons"; "search"] = Some (e, ps)
      /\ @get_pokemons_search fragment_only
           (with_params
              (Sample.request GET ["pokemons"; "search"] [("name", QArray ["a"; "b"])] JNull) ∅)
           (Sample.offline [] "down") = (Returned r, w')
      /\ In (status r) (documented e).
Proof.
  split; [reflexivity|].
  exact (@every_route_answers PokemonSchema.pokemon fragment_only
           (Sample.request GET ["pokemons"; "search"] [("name", QArray ["a"; "b"])] JNull)
           _ (Sample.offline [] "down") eq_refl).
Defined.

(** X2. The routes that read (the root, the list, the paginated list,
    the search and get-by-id) leave the collection as it is, whatever the
    request and whether or not the store answers. *)
Theorem reading_routes_keep_the_collection `{Schema} `{RegExpEngine}
    (e : Router.Endpoint) (h : Request -> Async Response) (req : Request) (w : World) :
  handler e = Some h ->
  reads_only e = true ->
  collection (snd (h req w)) = collection w.
Proof.
  intros Hh Hreads.
  destruct (summary_handler e h Hh req w) as (r & w' & Hrun & _ & _ & _ & Hsame).
  rewrite Hrun. exact (Hsame Hreads).
Qed.

Lemma reading_routes_keep_the_collection_witness :
  @handler PokemonSchema.pokemon fragment_only Router.Search
    = Some (@get_pokemons_search fragment_only)
  /\ reads_only Router.Search = true
  /\ collection (snd (@get_pokemons_search fragment_only
                        (Sample.request GET ["pokemons"; "search"] [("name", QString "a")] JNull)
                        (Sample.online [Sample.bulbizarre])))
     = collection (Sample.online [Sample.bulbizarre]).
Proof.
  split; [reflexivity|]. split; [reflexivity|].
  exact (@reading_routes_keep_the_collection PokemonSchema.pokemon fragment_only
           Router.Search _
           (Sample.request GET ["pokemons"; "search"] [("name", QString "a")] JNull)
           (Sample.online [Sample.bulbizarre]) eq_refl eq_refl).
Defined.

(** X3. A handler makes at most one call on the model per request: after
    it the journal is the journal before, with at most one call added;
    and it leaves the reachability of the store as it found it. *)
Theorem one_call_per_request `{Schema} `{RegExpEngine}
    (e : Router.Endpoint) (h : Request -> Async Response) (req : Request) (w : World) :
  handler e = Some h ->
  at_most_one_call (journal w) (journal (snd (h req w)))
  /\ outage (snd (h req w)) = outage w.
Proof.
  intros Hh.
  destruct (summary_handler e h Hh req w) as (r & w' & Hrun & _ & Hcalls & Hout & _).
  rewrite Hrun. split; assumption.
Qed.

Lemma one_call_per_request_witness :
  @handler PokemonSchema.pokemon fragment_only Router.UpdateById
    = Some (@put_pokemons_id PokemonSchema.pokemon)
  /\ at_most_one_call (journal (Sample.online [Sample.bulbizarre]))
       (journal (snd (@put_pokemons_id PokemonSchema.pokemon
                        (Sample.by_id PUT "1" (JObject [("image", JString "x.png")]))
                        (Sample.online [Sample.bulbizarre])))).
Proof.
  split; [reflexivity|].
  exact (proj1 (@one_call_per_request PokemonSchema.pokemon fragment_only
                  Router.UpdateById _
                  (Sample.by_id PUT "1" (JObject [("image", JString "x.png")]))
                  (Sample.online [Sample.bulbizarre]) eq_refl)).
Defined.

(* ===================================================================== *)
(** ** Failures *)
(* ===================================================================== *)



(** X5. The page of a request is never 0, and when it is negative the
    skip is negative: the query is refused, or the store is out of reach,
    and the route answers 500 with the generic body; the collection is
    left as it is. *)
Theorem negative_page (req : Request) (w : World) :
  requested_page req <> 0
  /\ (requested_page req < 0 ->
      fst (get_pokemons_20 req w) = Returned server_error
      /\ collection (snd (get_pokemons_20 req w)) = collection w).
Proof.
  split.
  - unfold requested_page.
    destruct (parseInt (ToString (query req !! "page"))) as [|[|p|p]]; simpl; lia.
  - intros Hneg. unfold requested_page in Hneg.
    unfold get_pokemons_20. unfold_handler. cbv zeta. simpl skipped.
    destruct (outage w); [split; reflexivity|].
    destruct (Z.ltb_spec ((or_default (parseInt (ToString (query req !! "page"))) 1 - 1) * 20) 0)
      as [_|Hge]; [split; reflexivity | lia].
Qed.

Lemma negative_page_witness :
  requested_page (Sample.request GET ["pokemons"; "20"] [("page", QString "-3")] JNull) < 0
  /\ fst (get_pokemons_20 (Sample.request GET ["pokemons"; "20"] [("page", QString "-3")] JNull)
            (Sample.online [Sample.bulbizarre]))
     = Returned server_error.
Proof.
  assert (Hneg : requested_page
                   (Sample.request GET ["pokemons"; "20"] [("page", QString "-3")] JNull) < 0)
    by (vm_compute; reflexivity).
  split; [exact Hneg|].
  exact (proj1 (proj2 (negative_page _ (Sample.online [Sample.bulbizarre])) Hneg)).
Defined.

(** X6. When the name parameter of a search is not a string (a repeated
    or bracketed parameter), [trim] is not a function of it: the route
    answers 500 with the generic body and makes no call on the store,
    whatever the state of the store. *)
Theorem search_name_not_a_string `{RegExpEngine} (req : Request) (w : World) (v : QueryValue) :
  query req !! "name" = Some v ->
  (forall s, v <> QString s) ->
  get_pokemons_search req w = (Returned server_error, w).
Proof.
  intros Hname Hv. unfold get_pokemons_search. unfold_handler. rewrite Hname.
  destruct v as [s|items|]; [exfalso; exact (Hv s eq_refl) | reflexivity | reflexivity].
Qed.

Lemma search_name_not_a_string_witness :
  query (Sample.request GET ["pokemons"; "search"] [("name", QArray ["pika"; "bulb"])] JNull)
    !! "name" = Some (QArray ["pika"; "bulb"])
  /\ @get_pokemons_search fragment_only
       (Sample.request GET ["pokemons"; "search"] [("name", QArray ["pika"; "bulb"])] JNull)
       (Sample.online [Sample.bulbizarre])
     = (Returned server_error, Sample.online [Sample.bulbizarre]).
Proof.
  assert (Hname : query (Sample.request GET ["pokemons"; "search"]
                           [("name", QArray ["pika"; "bulb"])] JNull) !! "name"
                  = Some (QArray ["pika"; "bulb"])) by (vm_compute; reflexivity).
  split; [exact Hname|].
  apply (@search_name_not_a_string fragment_only _ _ _ Hname).
  intros s. discriminate.
Defined.

(* ===================================================================== *)
(** ** POST /pokemons *)
(* ===================================================================== *)


(* ===================================================================== *)
(** ** Writing routes on a record that is there *)
(* ===================================================================== *)

Lemma update_first_at (p : JSON -> bool) (f : JSON -> JSON) (pre post : list JSON) (d : JSON) :
  (forall x, In x pre -> p x = false) -> p d = true ->
  update_first p f (pre ++ d :: post) = (Some (d, f d), (pre ++ f d :: post)%list).
Proof.
  induction pre as [|x pre IH]; intros Hpre Hd; simpl.
  - rewrite Hd. reflexivity.
  - rewrite (Hpre x) by (left; reflexivity).
    rewrite IH; [reflexivity | | exact Hd]. intros y Hy. apply Hpre. right. exact Hy.
Qed.

Lemma find_head {A} (p : A -> bool) (x : A) (l : list A) :
  p x = true -> List.find p (x :: l) = Some x.
Proof. intros Hx. simpl. rewrite Hx. reflexivity. Qed.

(** The first element a predicate holds of, with what comes before it. *)
Lemma first_match_split {A} (p : A -> bool) (l : list A) :
  (exists x, In x l /\ p x = true) ->
  exists pre d post, l = (pre ++ d :: post)%list /\ p d = true
                     /\ forall x, In x pre -> p x = false.
Proof.
  induction l as [|a l IH]; intros (x & Hin & Hx); [destruct Hin|].
  destruct (p a) eqn:Ha.
  - exists [], a, l. repeat split; [exact Ha | intros y []].
  - destruct IH as (pre & d & post & Hl & Hd & Hpre).
    + destruct Hin as [<-|Hin]; [congruence | exists x; split; assumption].
    + exists (a :: pre), d, post. rewrite Hl. repeat split; [exact Hd|].
      intros y [<-|Hy]; [exact Ha | apply Hpre, Hy].
Qed.

(** X8. The update route on a store that answers, with a body that the
    schema accepts, when a record has the id: the first record with the
    id, in store order, is replaced in place by its update, the records
    before and after it are untouched, and the answer is 200 with the
    record after the update. If the update keeps the id, a get-by-id with
    that id then answers 200 with the updated record. *)
Theorem update_in_place `{Schema} (req lookup : Request) (w : World) (n : Z)
    (change : JSON -> JSON) (d0 : JSON) :
  outage w = None ->
  cast_update (body req) = inr change ->
  update_validators (body req) = None ->
  parseInt (id_param req) = Int n ->
  In d0 (collection w) -> has_id n d0 ->
  exists pre d post w',
    collection w = (pre ++ d :: post)%list
    /\ has_id n d
    /\ (forall x, In x pre -> ~ has_id n x)
    /\ put_pokemons_id req w = (Returned {| status := 200; json := change d |}, w')
    /\ collection w' = (pre ++ change d :: post)%list
    /\ (has_id n (change d) -> parseInt (id_param lookup) = Int n ->
        fst (get_pokemons_id lookup w') = Returned {| status := 200; json := change d |}).
Proof.
  intros Hup Hcast Hvalid Hn Hin Hid.
  destruct (first_match_split (selects (id_filter (Int n))) (collection w))
    as (pre & d & post & Hdocs & Hd & Hpre).
  { exists d0. split; [exact Hin|]. rewrite selects_id_filter. apply holds_id. exact Hid. }
  assert (Hpre' : forall x, In x pre -> ~ has_id n x).
  { intros x Hx Hxid. apply holds_id in Hxid. rewrite <- selects_id_filter in Hxid.
    rewrite (Hpre x Hx) in Hxid. discriminate. }
  exists pre, d, post. eexists.
  split; [exact Hdocs|].
  split; [apply holds_id; rewrite <- selects_id_filter; exact Hd|].
  split; [exact Hpre'|].
  rewrite put_pokemons_id_catch, findOneAndUpdate_run. cbv zeta.
  rewrite Hcast, Hvalid, Hup, Hn, Hdocs, (update_first_at _ _ _ _ _ Hpre Hd).
  split; [reflexivity|]. split; [reflexivity|].
  intros Hkept Hlookup.
  rewrite get_pokemons_id_run by reflexivity. rewrite Hlookup. simpl collection.
  assert (Hsel : selects (id_filter (Int n)) (change d) = true)
    by (rewrite selects_id_filter; apply holds_id; exact Hkept).
  rewrite find_app_none by exact Hpre.
  rewrite (find_head _ _ _ Hsel). reflexivity.
Qed.

Lemma update_in_place_witness :
  outage (Sample.online [Sample.bulbizarre; Sample.reptincel]) = None
  /\ parseInt (id_param (Sample.by_id PUT "5" (JObject [("image", JString "r.png")]))) = Int 5
  /\ has_id 5 Sample.reptincel
  /\ exists pre d post w',
      [Sample.bulbizarre; Sample.reptincel] = (pre ++ d :: post)%list
      /\ has_id 5 d
      /\ @put_pokemons_id PokemonSchema.pokemon
           (Sample.by_id PUT "5" (JObject [("image", JString "r.png")]))
           (Sample.online [Sample.bulbizarre; Sample.reptincel])
         = (Returned {| status := 200;
                        json := PokemonSchema.assign [("image", JString "r.png")] d |}, w')
      /\ collection w' = (pre ++ PokemonSchema.assign [("image", JString "r.png")] d :: post)%list.
Proof.
  split; [reflexivity|]. split; [vm_compute; reflexivity|]. split; [reflexivity|].
  destruct (@update_in_place PokemonSchema.pokemon
              (Sample.by_id PUT "5" (JObject [("image", JString "r.png")]))
              (Sample.by_id GET "5" JNull)
              (Sample.online [Sample.bulbizarre; Sample.reptincel]) 5
              (PokemonSchema.assign [("image", JString "r.png")]) Sample.reptincel
              eq_refl eq_refl eq_refl)
    as (pre & d & post & w' & Hdocs & Hid & _ & Hput & Hafter & _).
  - vm_compute; reflexivity.
  - right; left; reflexivity.
  - reflexivity.
  - exists pre, d, post, w'. repeat split; assumption.
Defined.

(** X9. Delete-by-id on a store that answers, when records have the id:
    exactly one record is removed, the first with the id in store order;
    the others, those with the same id included, stay in their order, and
    the answer is 200 with the message and the id. *)
Theorem delete_first_of_several (req : Request) (w : World) (n : Z) (d0 : JSON) :
  outage w = None ->
  parseInt (id_param req) = Int n ->
  In d0 (collection w) -> has_id n d0 ->
  exists pre d post w',
    collection w = (pre ++ d :: post)%list
    /\ has_id n d
    /\ (forall x, In x pre -> ~ has_id n x)
    /\ delete_pokemons_id req w =
         (Returned {| status := 200;
                      json := JObject [("message", JString "Pokemon deleted successfully");
                                       ("id", JNumber n)] |}, w')
    /\ collection w' = (pre ++ post)%list
    /\ S (List.length (collection w')) = List.length (collection w).
Proof.
  intros Hup Hn Hin Hid.
  destruct (first_match_split (selects (id_filter (Int n))) (collection w))
    as (pre & d & post & Hdocs & Hd & Hpre).
  { exists d0. split; [exact Hin|]. rewrite selects_id_filter. apply holds_id. exact Hid. }
  exists pre, d, post. eexists.
  split; [exact Hdocs|].
  split; [apply holds_id; rewrite <- selects_id_filter; exact Hd|].
  split.
  { intros x Hx Hxid. apply holds_id in Hxid. rewrite <- selects_id_filter in Hxid.
    rewrite (Hpre x Hx) in Hxid. discriminate. }
  rewrite (delete_pokemons_id_run _ _ Hup), Hn, Hdocs, (delete_first_at _ _ _ _ Hpre Hd).
  split; [reflexivity|]. split; [reflexivity|].
  simpl. rewrite !length_app. simpl. lia.
Qed.

Lemma delete_first_of_several_witness :
  outage (Sample.online [Sample.raichu; Sample.bulbizarre; Sample.pikachu]) = None
  /\ parseInt (id_param (Sample.by_id DELETE "25" JNull)) = Int 25
  /\ has_id 25 Sample.pikachu
  /\ exists pre d post w',
      [Sample.raichu; Sample.bulbizarre; Sample.pikachu] = (pre ++ d :: post)%list
      /\ has_id 25 d
      /\ (forall x, In x pre -> ~ has_id 25 x)
      /\ collection w' = (pre ++ post)%list.
Proof.
  split; [reflexivity|]. split; [vm_compute; reflexivity|]. split; [reflexivity|].
  destruct (delete_first_of_several (Sample.by_id DELETE "25" JNull)
              (Sample.online [Sample.raichu; Sample.bulbizarre; Sample.pikachu])
              25 Sample.pikachu eq_refl)
    as (pre & d & post & w' & Hdocs & Hid & Hpre & _ & Hafter & _).
  - vm_compute; reflexivity.
  - right; right; left; reflexivity.
  - reflexivity.
  - exists pre, d, post, w'. repeat split; assumption.
Defined.

(** X10. Create, then delete: on a store that answers, when the create
    of a body succeeds and stores a document of id [n] that no record
    carried before, a delete-by-id with that id answers 200, the
    collection is again what it was before the create, and a get-by-id
    with that id then answers 404. *)
Theorem create_then_delete `{Schema} (creation removal lookup : Request) (w : World)
    (doc : JSON) (n : Z) :
  outage w = None ->
  cast_document (body creation) = inr doc ->
  has_id n doc ->
  (forall d, In d (collection w) -> ~ has_id n d) ->
  parseInt (id_param removal) = Int n ->
  parseInt (id_param lookup) = Int n ->
  exists w1 w2 w3,
    post_pokemons creation w = (Returned {| status := 201; json := doc |}, w1)
    /\ delete_pokemons_id removal w1 =
         (Returned {| status := 200;
                      json := JObject [("message", JString "Pokemon deleted successfully");
                                       ("id", JNumber n)] |}, w2)
    /\ collection w2 = collection w
    /\ get_pokemons_id lookup w2 = (Returned not_found, w3).
Proof.
  intros Hup Hdoc Hid Hfresh Hremoval Hlookup.
  assert (Hno : forall x, In x (collection w) -> selects (id_filter (Int n)) x = false)
    by (intros x Hx; apply not_has_id, Hfresh, Hx).
  assert (Hsel : selects (id_filter (Int n)) doc = true)
    by (rewrite selects_id_filter; apply holds_id; exact Hid).
  eexists. eexists. eexists.
  split; [apply (post_pokemons_run _ _ _ Hup Hdoc)|].
  split.
  { rewrite delete_pokemons_id_run by reflexivity. rewrite Hremoval. simpl collection.
    rewrite (delete_first_at _ _ [] _ Hno Hsel). simpl. rewrite app_nil_r. reflexivity. }
  split; [reflexivity|].
  rewrite get_pokemons_id_run by reflexivity. rewrite Hlookup. simpl collection.
  rewrite (find_none_iff _ _ Hno). reflexivity.
Qed.

Lemma create_then_delete_witness :
  outage (Sample.online [Sample.bulbizarre]) = None
  /\ @cast_document PokemonSchema.pokemon Sample.pikachu = inr stored_pikachu
  /\ has_id 25 stored_pikachu
  /\ exists w1 w2 w3,
      @post_pokemons PokemonSchema.pokemon (Sample.request POST ["pokemons"] [] Sample.pikachu)
        (Sample.online [Sample.bulbizarre])
      = (Returned {| status := 201; json := stored_pikachu |}, w1)
      /\ delete_pokemons_id (Sample.by_id DELETE "25" JNull) w1 =
           (Returned {| status := 200;
                        json := JObject [("message", JString "Pokemon deleted successfully");
                                         ("id", JNumber 25)] |}, w2)
      /\ collection w2 = [Sample.bulbizarre]
      /\ get_pokemons_id (Sample.by_id GET "25" JNull) w2 = (Returned not_found, w3).
Proof.
  split; [reflexivity|]. split; [vm_compute; reflexivity|]. split; [reflexivity|].
  refine (@create_then_delete PokemonSchema.pokemon
            (Sample.request POST ["pokemons"] [] Sample.pikachu)
            (Sample.by_id DELETE "25" JNull) (Sample.by_id GET "25" JNull)
            (Sample.online [Sample.bulbizarre]) stored_pikachu 25 eq_refl _ eq_refl _ _ _).
  - vm_compute; reflexivity.
  - intros d [<-|[]]; discriminate.
  - vm_compute; reflexivity.
  - vm_compute; reflexivity.
Defined.

(* ===================================================================== *)
(** ** Pages and the whole list *)
(* ===================================================================== *)

Lemma paginated_run (req : Request) (w : World) :
  outage w = None ->
  1 <= requested_page req ->
  get_pokemons_20 req w =
    (Returned (res_json (JObject [
       ("page", JNumber (requested_page req));
       ("limit", JNumber 20);
       ("count", JNumber (Z.of_nat (List.length
          (take 20 (drop (Z.to_nat ((requested_page req - 1) * 20)) (collection w))))));
       ("data", JArray (take 20 (drop (Z.to_nat ((requested_page req - 1) * 20)) (collection w))))])),
     MkWorld (collection w) None
       (journal w ++ [Find (limit 20 (skip ((requested_page req - 1) * 20) (find Everything)))])).
Proof.
  intros Hup Hpage. unfold get_pokemons_20, try_catch. cbv zeta.
  fold (requested_page req). unfold mbind, async_bind.
  rewrite exec_window by (try assumption; lia).
  rewrite filter_everything. reflexivity.
Qed.

Lemma list_run (req : Request) (w : World) :
  outage w = None ->
  get_pokemons req w =
    (Returned (res_json (JArray (collection w))),
     MkWorld (collection w) None (journal w ++ [Find (find Everything)])).
Proof.
  intros Hup. unfold get_pokemons. unfold_async. rewrite (exec_find _ _ Hup).
  rewrite filter_everything. reflexivity.
Qed.

Section Pages.
Context `{Schema} `{RegExpEngine}.

Lemma pages_from (reqs : list Request) : forall (w : World) (a : nat),
  outage w = None ->
  Forall asks_for_a_page reqs ->
  map requested_page reqs = map Z.of_nat (seq (S a) (List.length reqs)) ->
  flat_map data_of (serve reqs w) =
    take (20 * List.length reqs) (drop (20 * a) (collection w)).
Proof.
  induction reqs as [|req reqs IH]; intros w a Hup Hreqs Hpages.
  - reflexivity.
  - inversion Hreqs as [|? ? [Hget Hpath] Hrest]; subst.
    simpl in Hpages. injection Hpages as Hpage Hpages.
    simpl serve. unfold app. rewrite Hget, Hpath.
    change (Router.dispatch GET ["pokemons"; "20"]) with (Some (Router.Paginated, (∅ : gmap string string))).
    unfold handler. cbv beta iota.
    assert (Hpage' : requested_page (with_params req ∅) = Z.of_nat (S a)) by exact Hpage.
    rewrite paginated_run by (try assumption; lia).
    rewrite Hpage'.
    change (flat_map data_of (?x :: ?l)) with (data_of x ++ flat_map data_of l)%list.
    rewrite (IH _ (S a)); [|reflexivity|exact Hrest|exact Hpages].
    simpl collection.
    replace (Z.to_nat ((Z.of_nat (S a) - 1) * 20)) with (20 * a)%nat by lia.
    replace (20 * S a)%nat with (20 * a + 20)%nat by lia.
    rewrite <- drop_drop.
    replace (20 * List.length (req :: reqs))%nat with (20 + 20 * List.length reqs)%nat
      by (simpl List.length; lia).
    rewrite <- take_take_drop. reflexivity.
Qed.

(** X11. Pages compose into the list: on a store that answers, the [data]
    of the answers to requests for the pages 1, 2, ..., k, taken one
    after the other, is the first [20 * k] records of the collection in
    store order, each record once; and when [20 * k] reaches the size of
    the collection it is the array that the list route answers with. *)
Theorem pages_make_the_list (reqs : list Request) (w : World) (all : Request) :
  outage w = None ->
  Forall asks_for_a_page reqs ->
  map requested_page reqs = map Z.of_nat (seq 1 (List.length reqs)) ->
  flat_map data_of (serve reqs w) = take (20 * List.length reqs) (collection w)
  /\ ((List.length (collection w) <= 20 * List.length reqs)%nat ->
      fst (get_pokemons all w) =
        Returned {| status := 200; json := JArray (flat_map data_of (serve reqs w)) |}).
Proof.
  intros Hup Hreqs Hpages.
  assert (Hdata : flat_map data_of (serve reqs w) = take (20 * List.length reqs) (collection w)).
  { rewrite (pages_from reqs w 0 Hup Hreqs Hpages). reflexivity. }
  split; [exact Hdata|].
  intros Hall. rewrite Hdata, (take_ge _ _ Hall), (list_run _ _ Hup). reflexivity.
Qed.
End Pages.

Lemma pages_make_the_list_witness :
  outage (Sample.online [Sample.bulbizarre; Sample.reptincel; Sample.rattatac]) = None
  /\ Forall asks_for_a_page
       [Sample.request GET ["pokemons"; "20"] [] JNull;
        Sample.request GET ["pokemons"; "20"] [("page", QString "2")] JNull]
  /\ flat_map data_of
       (@serve PokemonSchema.pokemon fragment_only
          [Sample.request GET ["pokemons"; "20"] [] JNull;
           Sample.request GET ["pokemons"; "20"] [("page", QString "2")] JNull]
          (Sample.online [Sample.bulbizarre; Sample.reptincel; Sample.rattatac]))
     = [Sample.bulbizarre; Sample.reptincel; Sample.rattatac].
Proof.
  assert (Hreqs : Forall asks_for_a_page
       [Sample.request GET ["pokemons"; "20"] [] JNull;
        Sample.request GET ["pokemons"; "20"] [("page", QString "2")] JNull])
    by (repeat constructor).
  split; [reflexivity|]. split; [exact Hreqs|].
  exact (proj1 (@pages_make_the_list PokemonSchema.pokemon fragment_only _
                  (Sample.online [Sample.bulbizarre; Sample.reptincel; Sample.rattatac])
                  (Sample.request GET ["pokemons"] [] JNull)
                  eq_refl Hreqs ltac:(vm_compute; reflexivity))).
Defined.

(* ===================================================================== *)
(** ** What parseInt lets through in an id *)
(* ===================================================================== *)

Lemma list_ascii_of_string_app (s t : string) :
  list_ascii_of_string (s ++ t) = (list_ascii_of_string s ++ list_ascii_of_string t)%list.
Proof. induction s as [|c s IH]; simpl; [reflexivity | now rewrite IH]. Qed.

Lemma dropWhile_app_left {A} (p : A -> bool) (l t : list A) :
  dropWhile p l <> [] -> dropWhile p (l ++ t) = (dropWhile p l ++ t)%list.
Proof.
  induction l as [|x l IH]; simpl; [congruence|].
  destruct (p x); [exact IH | reflexivity].
Qed.

Lemma takeWhile_app_stop {A} (p : A -> bool) (l t : list A) :
  match t with [] => True | c :: _ => p c = false end ->
  takeWhile p (l ++ t) = takeWhile p l.
Proof.
  intros Ht. induction l as [|x l IH]; simpl.
  - destruct t as [|c t]; [reflexivity | simpl; now rewrite Ht].
  - destruct (p x); [now rewrite IH | reflexivity].
Qed.

Lemma parseInt_app (s t : string) :
  numeric s = true -> no_leading_digit t = true -> parseInt (s ++ t) = parseInt s.
Proof.
  intros Hs Ht.
  assert (Hstop : match list_ascii_of_string t with
                  | [] => True | c :: _ => isDigit c = false end).
  { destruct t as [|c t]; simpl in *; [exact I | now apply negb_true_iff]. }
  unfold numeric, after_sign in Hs.
  unfold parseInt. rewrite list_ascii_of_string_app.
  destruct (dropWhile isWhiteSpace (list_ascii_of_string s)) as [|c rest] eqn:Hdrop;
    [discriminate|].
  rewrite dropWhile_app_left by (rewrite Hdrop; discriminate). rewrite Hdrop.
  rewrite <- app_comm_cons.
  destruct c as [[] [] [] [] [] [] [] []]; cbv beta iota;
    rewrite ?app_comm_cons, (takeWhile_app_stop _ _ _ Hstop); reflexivity.
Qed.

(** X12. In the id of a path, [parseInt] reads the leading number and
    ignores what follows it: when the text [s] is numeric and [t] does
    not begin with a digit, the id [s ++ t] reads as [s] does, so
    get-by-id and delete-by-id answer the request for [s ++ t] exactly as
    they answer the one for [s] ("/pokemons/25abc" is "/pokemons/25"). *)
Theorem trailing_text_is_ignored (s t : string) (req req' : Request) (w : World) :
  numeric s = true ->
  no_leading_digit t = true ->
  id_param req = s ++ t ->
  id_param req' = s ->
  parseInt (s ++ t) = parseInt s
  /\ (exists n, parseInt s = Int n)
  /\ get_pokemons_id req w = get_pokemons_id req' w
  /\ delete_pokemons_id req w = delete_pokemons_id req' w.
Proof.
  intros Hs Ht Hreq Hreq'.
  pose proof (parseInt_app s t Hs Ht) as Happ.
  split; [exact Happ|]. split.
  - destruct (parseInt s) as [|n] eqn:Hn; [|exists n; reflexivity].
    apply parseInt_NaN_iff in Hn. congruence.
  - unfold get_pokemons_id, delete_pokemons_id. cbv zeta.
    rewrite Hreq, Hreq', Happ. split; reflexivity.
Qed.

Lemma trailing_text_is_ignored_witness :
  numeric "25" = true
  /\ no_leading_digit "abc" = true
  /\ parseInt "25abc" = parseInt "25"
  /\ get_pokemons_id (Sample.by_id GET "25abc" JNull) (Sample.online [Sample.raichu])
     = get_pokemons_id (Sample.by_id GET "25" JNull) (Sample.online [Sample.raichu]).
Proof.
  split; [reflexivity|]. split; [reflexivity|].
  destruct (trailing_text_is_ignored "25" "abc"
              (Sample.by_id GET "25abc" JNull) (Sample.by_id GET "25" JNull)
              (Sample.online [Sample.raichu]) eq_refl eq_refl)
    as (Hparse & _ & Hget & _).
  - vm_compute; reflexivity.
  - vm_compute; reflexivity.
  - split; [exact Hparse | exact Hget].
Defined.

(* ===================================================================== *)
(** ** Which requests reach the routes with an id *)
(* ===================================================================== *)



(* ===================================================================== *)
(** ** Letter case in a search *)
(* ===================================================================== *)








(* ===================================================================== *)
(** ** What the reading routes return *)
(* ===================================================================== *)

Lemma sublist_of_filter {A} (p : A -> bool) (l : list A) :
  sublist (List.filter p l) l.
Proof.
  induction l as [|x l IH]; simpl; [constructor|].
  destruct (p x); [apply sublist_skip | apply sublist_cons]; exact IH.
Qed.

(** X15. The reading routes answer 200 with stored records only: the
    array of a search is a subsequence of the collection (records in
    store order, none twice over), so is the [data] of a page, whose
    [count] is its length, and the record of a get-by-id is a member of
    the collection. *)
Theorem answers_are_stored_records `{RegExpEngine} (req : Request) (w w' : World) (r : Response) :
  status r = 200 ->
  (get_pokemons_search req w = (Returned r, w') ->
     exists records, json r = JArray records /\ sublist records (collection w))
  /\ (get_pokemons_20 req w = (Returned r, w') ->
      exists records,
        member "data" (json r) = Some (JArray records)
        /\ member "count" (json r) = Some (JNumber (Z.of_nat (List.length records)))
        /\ sublist records (collection w))
  /\ (get_pokemons_id req w = (Returned r, w') -> In (json r) (collection w)).
Proof.
  intros Hstatus. split; [|split].
  - unfold get_pokemons_search. unfold_handler. unfold call_trim.
    destruct (or_empty (query req !! "name")) as [s|items|]; unfold mret, async_ret, throw;
      simpl; try (intros [= <- _]; discriminate Hstatus).
    destruct (is_empty (trim s)); [intros [= <- _]; discriminate Hstatus|].
    unfold new_RegExp. destruct (RegExp_new (trim s)) as [msg|re];
      unfold mret, async_ret, throw; simpl; [intros [= <- _]; discriminate Hstatus|].
    destruct (outage w) eqn:Hout; simpl; [intros [= <- _]; discriminate Hstatus|].
    intros [= <- _]. eexists. split; [reflexivity|]. apply sublist_of_filter.
  - unfold get_pokemons_20. unfold_handler. simpl.
    destruct (outage w) eqn:Hout; simpl; [intros [= <- _]; discriminate Hstatus|].
    destruct (_ <? 0)%Z; simpl; [intros [= <- _]; discriminate Hstatus|].
    intros [= <- _]. eexists. split; [reflexivity|]. split; [reflexivity|].
    unfold window. simpl.
    etransitivity; [apply sublist_take|].
    etransitivity; [apply sublist_drop|]. apply sublist_of_filter.
  - unfold get_pokemons_id. unfold_handler. simpl.
    destruct (outage w) eqn:Hout; simpl; [intros [= <- _]; discriminate Hstatus|].
    destruct (List.find _ _) as [doc|] eqn:Hfind; [|intros [= <- _]; discriminate Hstatus].
    intros [= <- _]. simpl. apply find_some in Hfind. apply Hfind.
Qed.

Lemma answers_are_stored_records_witness :
  status {| status := 200; json := Sample.reptincel |} = 200
  /\ In Sample.reptincel [Sample.bulbizarre; Sample.reptincel].
Proof.
  split; [reflexivity|].
  refine (proj2 (proj2 (@answers_are_stored_records fragment_only
                          (Sample.by_id GET "5" JNull)
                          (Sample.online [Sample.bulbizarre; Sample.reptincel])
                          _ {| status := 200; json := Sample.reptincel |} eq_refl)) _).
  vm_compute. reflexivity.
Defined.


